(** * smallsh: a shallow embedding of [smallsh.c] and its verified properties

    The shell is one C file.  Its process-wide variables ([fg_only],
    [background_processes], [prev_fg_status]) become the record [shell],
    threaded explicitly through the functions that read or write them.
    System calls are observable events: every function returns the list of
    events it performed together with the way it ended (it returned, the
    process exited, the program image was replaced, a signal ended the
    process, or the behaviour is undefined).  What the operating system
    answers to a call is not decided by the program, so the answers are
    read from a [kernel] record.

    Not modelled, because nothing observable here depends on them:
    [fflush], [free_command], and a failure of [calloc] or [strdup] to
    allocate. *)

From Stdlib Require Import Ascii.
From stdpp Require Import gmap strings list pretty.

Open Scope Z_scope.

(** ** Constants of [smallsh.c] *)

Definition INPUT_LENGTH : nat := 2048.
Definition MAX_ARGS : nat := 512.
Definition MAX_BG_PC : nat := 20.

(** The newline character of the C string literals. *)
Definition nl : string := String (Ascii.ascii_of_nat 10) EmptyString.

(** ** The system headers: <fcntl.h>, <signal.h>, <sys/wait.h> (Linux, glibc) *)

Module Sys.

Definition O_RDONLY : Z := 0.
Definition O_WRONLY : Z := 1.
Definition O_CREAT : Z := 64.
Definition O_TRUNC : Z := 512.

Definition WNOHANG : Z := 1.

Definition SIGINT : Z := 2.
Definition SIGTSTP : Z := 20.
Definition SA_RESTART : Z := 268435456.

(** [(signed char) x] for an [x] between 0 and 255. *)
Definition signed_char (x : Z) : Z := if 128 <=? x then x - 256 else x.

Definition WTERMSIG (status : Z) : Z := Z.land status 127.
Definition WEXITSTATUS (status : Z) : Z := Z.shiftr (Z.land status 65280) 8.
Definition WIFEXITED (status : Z) : bool := WTERMSIG status =? 0.
Definition WIFSIGNALED (status : Z) : bool :=
  0 <? Z.shiftr (signed_char (Z.land status 127 + 1)) 1.

(** The status word the kernel stores for a normal exit and for a death
    by signal ([W_EXITCODE] of glibc, without the core-dump bit). *)
Definition W_EXITCODE (ret sig : Z) : Z := Z.lor (Z.shiftl ret 8) sig.

End Sys.

(** ** Data model *)

Record last_status := LastStatus {
  exited : bool;
  terminated : bool;
  code : Z
}.

(** [argv] is the filled prefix of the C array; [argc] is its length. *)
Record command_line := CommandLine {
  argv : list string;
  input_file : option string;
  output_file : option string;
  is_bg : bool
}.

Definition argc (cmd : command_line) : nat := length (argv cmd).

(** [calloc(1, sizeof(struct command_line))]. *)
Definition empty_command : command_line :=
  {| argv := []; input_file := None; output_file := None; is_bg := false |}.

(** The three process-wide variables. *)
Record shell := Shell {
  fg_only : bool;
  background_processes : list Z;
  prev_fg_status : last_status
}.

(** The static initialisers. *)
Definition initial_shell : shell :=
  {| fg_only := false;
     background_processes := replicate MAX_BG_PC 0;
     prev_fg_status := {| exited := false; terminated := false; code := 0 |} |}.

Definition set_fg_only (b : bool) (sh : shell) : shell :=
  {| fg_only := b;
     background_processes := background_processes sh;
     prev_fg_status := prev_fg_status sh |}.

Definition set_background_processes (bg : list Z) (sh : shell) : shell :=
  {| fg_only := fg_only sh;
     background_processes := bg;
     prev_fg_status := prev_fg_status sh |}.

Definition set_prev_fg_status (st : last_status) (sh : shell) : shell :=
  {| fg_only := fg_only sh;
     background_processes := background_processes sh;
     prev_fg_status := st |}.

(** ** Processes: events, outcomes and the answers of the kernel *)

(** The functions registered as signal handlers, and what [sigaction] can
    install for a signal. *)
Inductive handler := Fn_handle_SIGINT | Fn_handle_SIGTSTP.

Inductive disposition :=
| SigDefault
| SigIgnore
| SigCatch (h : handler) (sa_flags : Z).

Inductive event :=
| EvFork (ret : Z)
| EvWaitpid (pid options ret : Z)
| EvOpen (path : string) (flags mode ret : Z)
| EvDup2 (oldfd newfd ret : Z)
| EvExecvp (file : string) (args : list string)
| EvSigaction (signum : Z) (act : disposition)
| EvChdir (path : option string)
| EvStdout (text : string)
| EvPerror (prefix : string).

(** How a piece of code ends: it returns to its caller, the process calls
    [exit], [execvp] replaces the program image, the default action of a
    signal ends the process, or the C standard leaves the behaviour
    undefined. *)
Inductive outcome (A : Type) :=
| Return (a : A)
| Exit (status : Z)
| Exec (file : string) (args : list string)
| Killed (sig : Z)
| Undefined.

Arguments Return {A} a.
Arguments Exit {A} status.
Arguments Exec {A} file args.
Arguments Killed {A} sig.
Arguments Undefined {A}.

Definition proc (A : Type) : Type := list event * outcome A.

#[global] Instance proc_ret : MRet proc := λ A a, ([], Return a).

#[global] Instance proc_bind : MBind proc := λ A B f m,
  match m with
  | (tr, Return a) => let '(tr', o) := f a in (tr ++ tr', o)
  | (tr, Exit s) => (tr, Exit s)
  | (tr, Exec file args) => (tr, Exec file args)
  | (tr, Killed sig) => (tr, Killed sig)
  | (tr, Undefined) => (tr, Undefined)
  end.

Definition emit (e : event) : proc unit := ([e], Return tt).
Definition exit {A} (status : Z) : proc A := ([], Exit status).
Definition undefined {A} : proc A := ([], Undefined).
Definition printf (text : string) : proc unit := emit (EvStdout text).
Definition perror (prefix : string) : proc unit := emit (EvPerror prefix).

Definition trace {A} (m : proc A) : list event := fst m.
Definition result {A} (m : proc A) : outcome A := snd m.

(** The answers of the operating system during one run of a function.
    - [k_fork]: what [fork()] returns in the process that runs the function;
    - [k_open path flags], [k_dup2 oldfd newfd]: the returned descriptor, or -1;
    - [k_execvp file args]: [true] when the image is replaced (execvp does
      not return), [false] when execvp returns -1;
    - [k_wait pid]: the blocking [waitpid(pid, &status, 0)] of the foreground
      path: the return value and the content of [status] after the call
      (what the kernel stored on success; on failure nothing is stored and
      the content is the indeterminate value the local variable had);
    - [k_poll i pid]: the same for the [WNOHANG] call made for slot [i];
    - [k_home]: [getenv("HOME")]. *)
Record kernel := Kernel {
  k_fork : Z;
  k_open : string → Z → Z;
  k_dup2 : Z → Z → Z;
  k_execvp : string → list string → bool;
  k_wait : Z → Z * Z;
  k_poll : nat → Z → Z * Z;
  k_home : option string
}.

Section syscalls.
Context (k : kernel).

Definition fork : proc Z := ([EvFork (k_fork k)], Return (k_fork k)).

Definition open (path : string) (flags mode : Z) : proc Z :=
  let fd := k_open k path flags in ([EvOpen path flags mode fd], Return fd).

Definition dup2 (oldfd newfd : Z) : proc Z :=
  let r := k_dup2 k oldfd newfd in ([EvDup2 oldfd newfd r], Return r).

(** [execvp(argv[0], argv)]: returns (with -1) only when it fails.  With an
    empty argument list [argv[0]] is NULL and the call fails. *)
Definition execvp (args : list string) : proc Z :=
  match args with
  | [] => mret (-1)
  | file :: _ =>
      if k_execvp k file args then ([EvExecvp file args], Exec file args)
      else ([EvExecvp file args], Return (-1))
  end.

Definition sigaction (signum : Z) (act : disposition) : proc unit :=
  ([EvSigaction signum act], Return tt).

Definition waitpid_blocking (pid : Z) : proc (Z * Z) :=
  let r := k_wait k pid in ([EvWaitpid pid 0 r.1], Return r).

Definition waitpid_nohang (slot : nat) (pid : Z) : proc (Z * Z) :=
  let r := k_poll k slot pid in ([EvWaitpid pid Sys.WNOHANG r.1], Return r).
End syscalls.

(** ** Signal handlers *)

Definition msg_enter : string :=
  nl +:+ "Entering foreground-only mode (& is now ignored)" +:+ nl.
Definition msg_exit : string :=
  nl +:+ "Exiting foreground-only mode" +:+ nl.

(** [write(STDOUT_FILENO, msg, strlen(msg))] is one unbuffered write. *)
Definition handle_SIGTSTP (sh : shell) : proc shell :=
  if negb (fg_only sh) then
    emit (EvStdout msg_enter) ;; mret (set_fg_only true sh)
  else
    emit (EvStdout msg_exit) ;; mret (set_fg_only false sh).

(** The body of [handle_SIGINT] is empty. *)
Definition handle_SIGINT (sh : shell) : proc shell := mret sh.

(** ** The background job table *)

Definition msg_bg_exit (pid value : Z) : string :=
  "background pid " +:+ pretty pid +:+ " is done: exit value " +:+ pretty value +:+ nl.
Definition msg_bg_signal (pid sig : Z) : string :=
  "background pid " +:+ pretty pid +:+ " is done: terminated by signal " +:+ pretty sig +:+ nl.

(** One turn of the loop body of [check_background_processes], for slot [i].
    A slot index outside the list is not reached while the table has its
    [MAX_BG_PC] slots; the model leaves the table as it is there. *)
Definition check_slot (k : kernel) (i : nat) (bg : list Z) : proc (list Z) :=
  match bg !! i with
  | Some pid =>
      if negb (pid =? 0) then
        r ← waitpid_nohang k i pid;
        let '(result, bgStatus) := r in
        if 0 <? result then
          (if Sys.WIFEXITED bgStatus then
             printf (msg_bg_exit result (Sys.WEXITSTATUS bgStatus))
           else if Sys.WIFSIGNALED bgStatus then
             printf (msg_bg_signal result (Sys.WTERMSIG bgStatus))
           else mret tt) ;;
          mret (<[i := 0]> bg)
        else mret bg
      else mret bg
  | None => mret bg
  end.

(** [for (int i = start; i < start + n; i++)]. *)
Fixpoint check_slots (k : kernel) (n : nat) (i : nat) (bg : list Z) : proc (list Z) :=
  match n with
  | O => mret bg
  | S n' => bg' ← check_slot k i bg; check_slots k n' (S i) bg'
  end.

Definition check_background_processes (k : kernel) (sh : shell) : proc shell :=
  bg ← check_slots k MAX_BG_PC 0 (background_processes sh);
  mret (set_background_processes bg sh).

(** [add_bg_process]: the first slot that holds 0 receives [pid]; the loop
    ends without a store when no slot among the [n] examined holds 0. *)
Fixpoint add_bg_from (n : nat) (i : nat) (pid : Z) (bg : list Z) : list Z :=
  match n with
  | O => bg
  | S n' =>
      match bg !! i with
      | Some p => if p =? 0 then <[i := pid]> bg else add_bg_from n' (S i) pid bg
      | None => bg
      end
  end.

Definition add_bg_process (pid : Z) (sh : shell) : shell :=
  set_background_processes (add_bg_from MAX_BG_PC 0 pid (background_processes sh)) sh.

(** ** [parse_input] *)

(** The delimiters of [strtok(input, " \n")]. *)
Definition is_delim (c : Ascii.ascii) : bool :=
  Ascii.eqb c " "%char || Ascii.eqb c (Ascii.ascii_of_nat 10).

Definition is_nul (c : Ascii.ascii) : bool := Ascii.eqb c Ascii.zero.

(** The successive results of [strtok] on the buffer, up to the first NULL:
    the maximal runs of characters that are not delimiters.  [cur] is the
    token being read, if one has begun.  A C string ends at its first NUL. *)
Fixpoint strtok_from (input : string) (cur : option string) : list string :=
  match input with
  | EmptyString => match cur with Some t => [t] | None => [] end
  | String c rest =>
      if is_nul c then match cur with Some t => [t] | None => [] end
      else if is_delim c then
        match cur with
        | Some t => t :: strtok_from rest None
        | None => strtok_from rest None
        end
      else strtok_from rest (Some (default EmptyString cur +:+ String c EmptyString))
  end.

Definition strtok_all (input : string) : list string := strtok_from input None.

Definition set_input_file (f : string) (cmd : command_line) : command_line :=
  {| argv := argv cmd; input_file := Some f;
     output_file := output_file cmd; is_bg := is_bg cmd |}.

Definition set_output_file (f : string) (cmd : command_line) : command_line :=
  {| argv := argv cmd; input_file := input_file cmd;
     output_file := Some f; is_bg := is_bg cmd |}.

Definition set_is_bg (cmd : command_line) : command_line :=
  {| argv := argv cmd; input_file := input_file cmd;
     output_file := output_file cmd; is_bg := true |}.

Definition push_arg (token : string) (cmd : command_line) : command_line :=
  {| argv := argv cmd ++ [token]; input_file := input_file cmd;
     output_file := output_file cmd; is_bg := is_bg cmd |}.

(** The [while (token)] loop over the tokens still to come.  After [<] or
    [>] the next result of [strtok] is handed to [strdup]; when there is
    none, that is [strdup(NULL)], and the result is [None].  The array
    [argv] has [MAX_ARGS + 1] elements: a store at index [MAX_ARGS + 1] is
    outside it, [None] as well. *)
Fixpoint parse_tokens (tokens : list string) (cmd : command_line) : option command_line :=
  match tokens with
  | [] => Some cmd
  | token :: rest =>
      if String.eqb token "<" then
        match rest with
        | [] => None
        | file :: rest' => parse_tokens rest' (set_input_file file cmd)
        end
      else if String.eqb token ">" then
        match rest with
        | [] => None
        | file :: rest' => parse_tokens rest' (set_output_file file cmd)
        end
      else if String.eqb token "&" then parse_tokens rest (set_is_bg cmd)
      else if (MAX_ARGS + 1 <=? argc cmd)%nat then None
      else parse_tokens rest (push_arg token cmd)
  end.

(** [input] is the buffer as [fgets] filled it (at most [INPUT_LENGTH - 1]
    characters of the line). *)
Definition parse_input (input : string) : proc command_line :=
  printf ": ";;
  match parse_tokens (strtok_all input) empty_command with
  | Some cmd => mret cmd
  | None => undefined
  end.

(** ** [foreground_process] and [background_process] *)

Definition msg_cannot_open (file : string) : string :=
  "cannot open " +:+ file +:+ " for input" +:+ nl.
Definition msg_terminated (sig : Z) : string :=
  "terminated by signal " +:+ pretty sig +:+ nl.
Definition msg_bg_pid (pid : Z) : string :=
  "background pid is " +:+ pretty pid +:+ nl.

Definition dev_null : string := "/dev/null".

Definition output_flags : Z :=
  Z.lor (Z.lor Sys.O_WRONLY Sys.O_CREAT) Sys.O_TRUNC.

(** [0644]. *)
Definition output_mode : Z := 6 * 64 + 4 * 8 + 4.

(** [cmd->argv[0]] as [perror] prints it (nothing for a NULL pointer). *)
Definition argv0 (cmd : command_line) : string := default EmptyString (head (argv cmd)).

(** The record stored after the wait: the two [if]s on the status word. *)
Definition classify (fgStatus : Z) (prev : last_status) : last_status :=
  if Sys.WIFSIGNALED fgStatus then
    {| exited := false; terminated := true; code := Sys.WTERMSIG fgStatus |}
  else if Sys.WIFEXITED fgStatus then
    {| exited := true; terminated := false; code := Sys.WEXITSTATUS fgStatus |}
  else prev.

Definition foreground_process (k : kernel) (cmd : command_line) (sh : shell) : proc shell :=
  childPid ← fork k;
  if childPid =? -1 then
    perror ("fork()" +:+ nl);; exit 1
  else if childPid =? 0 then
    match input_file cmd with
    | Some file =>
        sourceFD ← open k file Sys.O_RDONLY 0;
        if sourceFD =? -1 then printf (msg_cannot_open file);; exit 1
        else
          in_result ← dup2 k sourceFD 0;
          if in_result =? -1 then perror file;; exit 2 else mret tt
    | None => mret tt
    end;;
    match output_file cmd with
    | Some file =>
        targetFD ← open k file output_flags output_mode;
        if targetFD =? -1 then perror file;; exit 1
        else
          out_result ← dup2 k targetFD 1;
          if out_result =? -1 then perror file;; exit 2 else mret tt
    | None => mret tt
    end;;
    execvp k (argv cmd);;
    perror (argv0 cmd);;
    exit 2
  else
    r ← waitpid_blocking k childPid;
    let '(waited, fgStatus) := r in
    (if waited =? -1 then perror "wait" else mret tt);;
    let status := classify fgStatus (prev_fg_status sh) in
    (if terminated status then printf (msg_terminated (code status)) else mret tt);;
    mret (set_prev_fg_status status sh).

Definition background_process (k : kernel) (cmd : command_line) (sh : shell) : proc shell :=
  childPid ← fork k;
  if childPid =? -1 then
    perror ("fork()" +:+ nl);; exit 1
  else if childPid =? 0 then
    let src_file := default dev_null (input_file cmd) in
    sourceFD ← open k src_file Sys.O_RDONLY 0;
    (if sourceFD =? -1 then perror src_file;; exit 1 else mret tt);;
    in_result ← dup2 k sourceFD 0;
    (if in_result =? -1 then perror src_file;; exit 2 else mret tt);;
    let target_file := default dev_null (output_file cmd) in
    targetFD ← open k target_file output_flags output_mode;
    (if targetFD =? -1 then perror target_file;; exit 1 else mret tt);;
    out_result ← dup2 k targetFD 1;
    (if out_result =? -1 then perror target_file;; exit 2 else mret tt);;
    execvp k (argv cmd);;
    perror (argv0 cmd);;
    exit 2
  else
    let sh' := add_bg_process childPid sh in
    printf (msg_bg_pid childPid);;
    mret sh'.

(** ** The body of the loop of [main] *)

Definition msg_exit_value (value : Z) : string := "exit value " +:+ pretty value +:+ nl.
Definition msg_exit_status_0 : string := "exit status 0" +:+ nl.

(** The [status] built-in. *)
Definition status_builtin (sh : shell) : proc unit :=
  if exited (prev_fg_status sh) then printf (msg_exit_value (code (prev_fg_status sh)))
  else if terminated (prev_fg_status sh) then printf (msg_terminated (code (prev_fg_status sh)))
  else printf msg_exit_status_0.

(** [curr_command->argv[0][0] == '#']. *)
Definition starts_with_hash (s : string) : bool :=
  match s with
  | String c _ => Ascii.eqb c "#"%char
  | EmptyString => false
  end.

(** What [main] does with a parsed command. *)
Definition dispatch (k : kernel) (cmd : command_line) (sh : shell) : proc shell :=
  match argv cmd with
  | [] => mret sh
  | arg0 :: _ =>
      if starts_with_hash arg0 then mret sh
      else if String.eqb arg0 "exit" then exit 0
      else if String.eqb arg0 "cd" then
        match argv cmd !! 1%nat with
        | Some path => emit (EvChdir (Some path));; mret sh
        | None => emit (EvChdir (k_home k));; mret sh
        end
      else if String.eqb arg0 "status" then status_builtin sh;; mret sh
      else if is_bg cmd && bool_decide (fg_only sh = false) then background_process k cmd sh
      else foreground_process k cmd sh
  end.

(** The two [sigaction] calls that [main] makes before its loop. *)
Definition install_handlers : proc unit :=
  sigaction Sys.SIGINT (SigCatch Fn_handle_SIGINT Sys.SA_RESTART);;
  sigaction Sys.SIGTSTP (SigCatch Fn_handle_SIGTSTP 0).

(** One turn of [while (true)]. *)
Definition main_loop_body (k : kernel) (input : string) (sh : shell) : proc shell :=
  sh1 ← check_background_processes k sh;
  cmd ← parse_input input;
  dispatch k cmd sh1.



(** A command that [main] hands to [background_process] or
    [foreground_process]: it has a first argument, which does not begin
    with [#] and is none of the built-ins. *)
Definition non_builtin (cmd : command_line) : Prop :=
  ∃ arg0 rest, argv cmd = arg0 :: rest ∧ starts_with_hash arg0 = false ∧
    arg0 ≠ "exit" ∧ arg0 ≠ "cd" ∧ arg0 ≠ "status".

(** ** What the kernel keeps for a process

    The program only sees return values.  Descriptors, signal dispositions
    and the set of children that were not waited for live in the kernel;
    they are recovered from the events of a run. *)

Module Kern.

Record file_description := FileDescription {
  fd_path : string;
  fd_flags : Z;
  fd_mode : Z
}.

(** [open] binds the returned descriptor; [dup2] makes [newfd] refer to
    what [oldfd] refers to. *)
Definition fd_step (fds : gmap Z file_description) (e : event) : gmap Z file_description :=
  match e with
  | EvOpen path flags mode ret =>
      if ret =? -1 then fds
      else <[ret := {| fd_path := path; fd_flags := flags; fd_mode := mode |}]> fds
  | EvDup2 oldfd newfd ret =>
      if ret =? -1 then fds
      else match fds !! oldfd with
           | Some d => <[newfd := d]> fds
           | None => fds
           end
  | _ => fds
  end.

Definition fds_after (tr : list event) (fds : gmap Z file_description) :
    gmap Z file_description :=
  foldl fd_step fds tr.

(** [open] never returns a descriptor that is in use. *)
Fixpoint open_answers_ok (tr : list event) (fds : gmap Z file_description) : Prop :=
  match tr with
  | [] => True
  | e :: tr' =>
      match e with
      | EvOpen _ _ _ ret => ret = -1 ∨ fds !! ret = None
      | _ => True
      end ∧ open_answers_ok tr' (fd_step fds e)
  end.

(** Signal dispositions; a signal without an entry has the default one. *)
Definition sig_step (tbl : gmap Z disposition) (e : event) : gmap Z disposition :=
  match e with
  | EvSigaction signum act => <[signum := act]> tbl
  | _ => tbl
  end.

Definition sigs_after (tr : list event) (tbl : gmap Z disposition) : gmap Z disposition :=
  foldl sig_step tbl tr.

Definition disposition_of (tbl : gmap Z disposition) (sig : Z) : disposition :=
  default SigDefault (tbl !! sig).

(** [execve] resets every caught signal to the default disposition and
    keeps ignored signals ignored. *)
Definition exec_reset (tbl : gmap Z disposition) : gmap Z disposition :=
  (λ d, match d with SigCatch _ _ => SigDefault | _ => d end) <$> tbl.

(** Children that were created and not yet waited for. *)
Definition child_step (children : gset Z) (e : event) : gset Z :=
  match e with
  | EvFork ret => if 0 <? ret then {[ret]} ∪ children else children
  | EvWaitpid _ _ ret => if 0 <? ret then children ∖ {[ret]} else children
  | _ => children
  end.

Definition children_after (tr : list event) (children : gset Z) : gset Z :=
  foldl child_step children tr.

(** [fork] returns -1, 0 or a positive process id, and never the id of a
    child that was not waited for yet; [waitpid(pid, ...)] with a positive
    [pid] reports nothing but that child. *)
Fixpoint child_answers_ok (tr : list event) (children : gset Z) : Prop :=
  match tr with
  | [] => True
  | e :: tr' =>
      match e with
      | EvFork ret => -1 ≤ ret ∧ (0 < ret → ret ∉ children)
      | EvWaitpid pid _ ret => 0 < ret → ret = pid ∧ pid ∈ children
      | _ => True
      end ∧ child_answers_ok tr' (child_step children e)
  end.

End Kern.

(** ** Signal delivery and the runs of the shell *)

(** The dispositions of the shell once [main] has reached its loop. *)
Definition shell_signals : gmap Z disposition :=
  Kern.sigs_after (trace install_handlers) ∅.

Definition run_handler (h : handler) (sh : shell) : proc shell :=
  match h with
  | Fn_handle_SIGINT => handle_SIGINT sh
  | Fn_handle_SIGTSTP => handle_SIGTSTP sh
  end.

(** Delivery of [sig] to a process whose dispositions are [tbl]. *)
Definition deliver (tbl : gmap Z disposition) (sig : Z) (sh : shell) : proc shell :=
  match Kern.disposition_of tbl sig with
  | SigDefault => ([], Killed sig)
  | SigIgnore => mret sh
  | SigCatch h _ => run_handler h sh
  end.

(** The shell process together with the kernel's set of its children. *)
Record world := World {
  w_shell : shell;
  w_children : gset Z
}.

Definition initial_world : world := {| w_shell := initial_shell; w_children := ∅ |}.

(** One step of the shell process: a turn of the loop of [main] that comes
    back to the top of the loop, or a handler run.  The handlers write
    [fg_only] only, which the loop reads once per turn (in [dispatch]), so a
    handler that runs in the middle of a turn leaves the state that one
    running just before or just after the turn leaves; that it can make a
    system call of the turn fail is part of the answers of the kernel. *)
Inductive step : world → list event → world → Prop :=
| step_loop k input w tr sh' :
    main_loop_body k input (w_shell w) = (tr, Return sh') →
    Kern.child_answers_ok tr (w_children w) →
    step w tr {| w_shell := sh'; w_children := Kern.children_after tr (w_children w) |}
| step_signal sig w tr sh' :
    deliver shell_signals sig (w_shell w) = (tr, Return sh') →
    step w tr {| w_shell := sh'; w_children := w_children w |}.

Inductive run : world → list event → world → Prop :=
| run_nil w : run w [] w
| run_step w1 tr1 w2 tr2 w3 :
    run w1 tr1 w2 → step w2 tr2 w3 → run w1 (tr1 ++ tr2) w3.

(** ** The data model of the specification *)

Inductive TerminationRecord :=
| ExitedWithCode (c : Z)
| KilledBySignal (sig : Z).

(** The record of [smallsh.c] that carries a [TerminationRecord]. *)
Definition record_of (r : TerminationRecord) : last_status :=
  match r with
  | ExitedWithCode c => {| exited := true; terminated := false; code := c |}
  | KilledBySignal sig => {| exited := false; terminated := true; code := sig |}
  end.

(** The status word [waitpid] stores for a terminated child: the exit code
    in bits 8 to 15 for a normal exit; the signal number in bits 0 to 6,
    and bit 7 when a core was dumped, for a death by signal. *)
Definition status_word (r : TerminationRecord) (core : bool) : Z :=
  match r with
  | ExitedWithCode c => Sys.W_EXITCODE c 0
  | KilledBySignal sig => Z.lor sig (if core then 128 else 0)
  end.

(** Exit codes are one byte; signal numbers run from 1 to 64 on Linux. *)
Definition valid_termination (r : TerminationRecord) : Prop :=
  match r with
  | ExitedWithCode c => 0 ≤ c < 256
  | KilledBySignal sig => 1 ≤ sig ≤ 64
  end.

(** A slot of the table is occupied when it holds a process id, free when
    it holds 0.  A process id occupies at most one slot. *)
Definition no_duplicate_pids (bg : list Z) : Prop :=
  ∀ (i j : nat) (pid : Z), bg !! i = Some pid → bg !! j = Some pid → pid ≠ 0 → i = j.

Definition table_inv (w : world) : Prop :=
  length (background_processes (w_shell w)) = MAX_BG_PC ∧
  no_duplicate_pids (background_processes (w_shell w)) ∧
  ∀ pid, pid ∈ background_processes (w_shell w) → pid ≠ 0 → pid ∈ w_children w.

(** What the reaper does for slot [i] when it holds [pid]: the events, and
    the content of the slot afterwards. *)
Definition slot_events (k : kernel) (i : nat) (pid : Z) : list event :=
  if pid =? 0 then []
  else
    EvWaitpid pid Sys.WNOHANG (k_poll k i pid).1 ::
    (if 0 <? (k_poll k i pid).1 then
       if Sys.WIFEXITED (k_poll k i pid).2 then
         [EvStdout (msg_bg_exit (k_poll k i pid).1 (Sys.WEXITSTATUS (k_poll k i pid).2))]
       else if Sys.WIFSIGNALED (k_poll k i pid).2 then
         [EvStdout (msg_bg_signal (k_poll k i pid).1 (Sys.WTERMSIG (k_poll k i pid).2))]
       else []
     else []).

Definition slot_after (k : kernel) (i : nat) (pid : Z) : Z :=
  if pid =? 0 then 0 else if 0 <? (k_poll k i pid).1 then 0 else pid.

(** A blocking wait: [waitpid] without [WNOHANG]. *)
Definition is_blocking_wait (e : event) : bool :=
  match e with
  | EvWaitpid _ options _ => options =? 0
  | _ => false
  end.

Definition is_wait (e : event) : bool :=
  match e with
  | EvWaitpid _ _ _ => true
  | _ => false
  end.

Definition is_fork (e : event) : bool :=
  match e with
  | EvFork _ => true
  | _ => false
  end.

Definition is_sigaction (e : event) : bool :=
  match e with
  | EvSigaction _ _ => true
  | _ => false
  end.

(** A line that announces a background process. *)
Definition is_bg_start_message (e : event) : bool :=
  match e with
  | EvStdout text => String.prefix "background pid is " text
  | _ => false
  end.

(** The invariant of the table with respect to the children of the shell. *)
Definition slots_inv (bg : list Z) (ch : gset Z) : Prop :=
  no_duplicate_pids bg ∧ ∀ pid, pid ∈ bg → pid ≠ 0 → pid ∈ ch.

(** ** Concrete commands, kernels and worlds used as examples *)

Definition sleep_bg : command_line :=
  {| argv := ["sleep"; "5"]; input_file := None; output_file := None; is_bg := true |}.

Definition sleep_fg : command_line :=
  {| argv := ["sleep"; "5"]; input_file := None; output_file := None; is_bg := false |}.

Definition sort_files : command_line :=
  {| argv := ["sort"]; input_file := Some "in.txt"; output_file := Some "out.txt";
     is_bg := true |}.

(** A kernel in the shell: [fork] gives the child the process id [pid],
    the blocking wait reports that child with the status word [status],
    and the poll of a slot reports what [poll] says. *)
Definition shell_kernel (pid status : Z) (poll : nat → Z → Z * Z) : kernel :=
  {| k_fork := pid;
     k_open := λ _ _, 3;
     k_dup2 := λ _ newfd, newfd;
     k_execvp := λ _ _, true;
     k_wait := λ p, (p, status);
     k_poll := poll;
     k_home := Some "/root" |}.

Definition still_running : nat → Z → Z * Z := λ _ _, (0, 0).
Definition all_exited (value : Z) : nat → Z → Z * Z :=
  λ _ pid, (pid, Sys.W_EXITCODE value 0).

(** A kernel in the shell whose blocking wait fails: [waitpid] returns -1
    and writes nothing, so the status variable holds [garbage]. *)
Definition interrupted_kernel (pid garbage : Z) : kernel :=
  {| k_fork := pid;
     k_open := λ _ _, 3;
     k_dup2 := λ _ newfd, newfd;
     k_execvp := λ _ _, true;
     k_wait := λ _, (-1, garbage);
     k_poll := still_running;
     k_home := Some "/root" |}.

(** A kernel in a child: [fork] returned 0; [open] succeeds unless the
    path is [missing], and returns 3 for the read-only open and 4 for the
    other; [dup2] succeeds, and [execvp] succeeds when [runs]. *)
Definition child_kernel (missing : string) (runs : bool) : kernel :=
  {| k_fork := 0;
     k_open := λ path flags,
       if String.eqb path missing then -1
       else if flags =? Sys.O_RDONLY then 3 else 4;
     k_dup2 := λ _ newfd, newfd;
     k_execvp := λ _ _, runs;
     k_wait := λ _, (-1, 0);
     k_poll := λ _ _, (-1, 0);
     k_home := None |}.

(** The world after the line [sleep 5 &] was read in the initial state and
    the child received the process id 77. *)
Definition bg_started_trace : list event :=
  trace (main_loop_body (shell_kernel 77 0 still_running) "sleep 5 &" initial_shell).

Definition bg_started_shell : shell :=
  {| fg_only := false;
     background_processes := <[0%nat := 77]> (replicate MAX_BG_PC 0);
     prev_fg_status := prev_fg_status initial_shell |}.

Definition bg_started_world : world :=
  {| w_shell := bg_started_shell;
     w_children := Kern.children_after bg_started_trace ∅ |}.

(** The descriptors a child inherits from a shell run in a terminal. *)
Definition terminal : Kern.file_description :=
  {| Kern.fd_path := "/dev/tty"; Kern.fd_flags := 2; Kern.fd_mode := 0 |}.

Definition terminal_fds : gmap Z Kern.file_description :=
  <[0 := terminal]> (<[1 := terminal]> (<[2 := terminal]> ∅)).

(** ** The shape of a command line

    A line is a sequence of items: a word, the token [&], or a redirection
    operator together with the token that follows it.  A word is a token
    that is none of the three special tokens. *)

Inductive item :=
| IArg (word : string)
| IBackground
| IRedirIn (file : string)
| IRedirOut (file : string).

Definition item_tokens (it : item) : list string :=
  match it with
  | IArg word => [word]
  | IBackground => ["&"]
  | IRedirIn file => ["<"; file]
  | IRedirOut file => [">"; file]
  end.

Definition line_tokens (items : list item) : list string :=
  concat (map item_tokens items).

Definition is_word (s : string) : Prop := s ≠ "<" ∧ s ≠ ">" ∧ s ≠ "&".

Definition is_redirect (s : string) : Prop := s = "<" ∨ s = ">".

Definition well_formed_item (it : item) : Prop :=
  match it with
  | IArg word => is_word word
  | _ => True
  end.

Fixpoint count_args (items : list item) : nat :=
  match items with
  | [] => 0
  | IArg _ :: rest => S (count_args rest)
  | _ :: rest => count_args rest
  end.

Definition apply_item (cmd : command_line) (it : item) : command_line :=
  match it with
  | IArg word => push_arg word cmd
  | IBackground => set_is_bg cmd
  | IRedirIn file => set_input_file file cmd
  | IRedirOut file => set_output_file file cmd
  end.

(** ** Words, lines and the standard input *)

(** Every character of [s] satisfies [p]. *)
Fixpoint all_chars (p : Ascii.ascii → bool) (s : string) : bool :=
  match s with
  | EmptyString => true
  | String c rest => p c && all_chars p rest
  end.

(** A character that [strtok] keeps inside a token. *)
Definition is_token_char (c : Ascii.ascii) : bool := negb (is_nul c) && negb (is_delim c).

(** A token: at least one character, none of them a delimiter or NUL. *)
Definition is_token (s : string) : Prop :=
  s ≠ EmptyString ∧ all_chars is_token_char s = true.

#[global] Instance item_eq_dec : EqDecision item.
Proof. solve_decision. Defined.

(** The words, the input files and the output files of a line, in order. *)
Definition words_of (items : list item) : list string :=
  omap (λ it, match it with IArg word => Some word | _ => None end) items.

Definition in_files_of (items : list item) : list string :=
  omap (λ it, match it with IRedirIn file => Some file | _ => None end) items.

Definition out_files_of (items : list item) : list string :=
  omap (λ it, match it with IRedirOut file => Some file | _ => None end) items.

Definition not_newline (c : Ascii.ascii) : bool :=
  negb (Ascii.eqb c (Ascii.ascii_of_nat 10)).

(** [fgets(input, size, stdin)], given the characters still to come on the
    standard input: at most [size - 1] characters are taken, and none after
    the first newline.  The result is the buffer and what is left of the
    stream. *)
Fixpoint fgets_from (room : nat) (stream : string) : string * string :=
  match room, stream with
  | O, _ => (EmptyString, stream)
  | S _, EmptyString => (EmptyString, EmptyString)
  | S room', String c rest =>
      if Ascii.eqb c (Ascii.ascii_of_nat 10) then (String c EmptyString, rest)
      else let '(buffer, rest') := fgets_from room' rest in (String c buffer, rest')
  end.

(** What the standard input gives to one call of [fgets]: the characters
    still to come, or a read that fails before the line is complete.
    [main] installs the handler of SIGTSTP with [sa_flags = 0], that is
    without [SA_RESTART], so a SIGTSTP that arrives while the shell waits
    at its prompt makes [read] fail with EINTR; [fgets] then returns NULL
    although a line is still to come.  [taken] is the number of characters
    of the stream that had been taken off it before the failure (none when
    the shell was waiting for the line to begin). *)
Inductive read_answer :=
| ReadChars
| ReadInterrupted (taken : nat).

(** [s] without its first [n] characters. *)
Fixpoint string_skip (n : nat) (s : string) : string :=
  match n, s with
  | O, _ => s
  | S _, EmptyString => EmptyString
  | S n', String _ rest => string_skip n' rest
  end.

(** The value of [fgets] (the buffer it filled and terminated, or NULL) and
    what is left of the stream.  [fgets] returns NULL at end of file, when
    there is no character to read, and when the read fails. *)
Definition fgets (size : nat) (answer : read_answer) (stream : string) :
    option string * string :=
  match answer with
  | ReadInterrupted taken => (None, string_skip taken stream)
  | ReadChars =>
      match stream with
      | EmptyString => (None, EmptyString)
      | _ => let '(buffer, rest) := fgets_from (size - 1) stream in (Some buffer, rest)
      end
  end.

(** [parse_input] reading the standard input.  The value of [fgets] is not
    looked at: when it is NULL, [strtok] runs over the array [input] as the
    failed call left it.  That array is a local variable without an
    initialiser, so what it holds then is not decided by the program:
    [array] is the C string found in it (its characters up to the first
    NUL), or [None] when its [INPUT_LENGTH] characters hold no NUL, in which
    case [strtok] reads beyond the array. *)
Definition parse_input_stdin (array : option string) (answer : read_answer)
    (stream : string) : proc (command_line * string) :=
  let '(line, rest) := fgets INPUT_LENGTH answer stream in
  match line with
  | Some input => cmd ← parse_input input; mret (cmd, rest)
  | None =>
      match array with
      | Some stale => cmd ← parse_input stale; mret (cmd, rest)
      | None => printf ": ";; undefined
      end
  end.

(** A command whose arguments and file names are all tokens. *)
Definition tokens_only (cmd : command_line) : Prop :=
  Forall is_token (argv cmd) ∧
  (∀ file, input_file cmd = Some file → is_token file) ∧
  (∀ file, output_file cmd = Some file → is_token file).

(** ** Events by kind *)

(** A system call that creates, awaits or sets up a process. *)
Definition is_process_event (e : event) : bool :=
  match e with
  | EvFork _ | EvWaitpid _ _ _ | EvOpen _ _ _ _ | EvDup2 _ _ _ | EvExecvp _ _ => true
  | _ => false
  end.

(** One of the two banners of [handle_SIGTSTP]. *)
Definition is_banner (e : event) : bool :=
  match e with
  | EvStdout text => String.eqb text msg_enter || String.eqb text msg_exit
  | _ => false
  end.

(** An [open] for writing, as the two process functions make it. *)
Definition is_output_open (e : event) : bool :=
  match e with
  | EvOpen _ flags _ _ => flags =? output_flags
  | _ => false
  end.

(** The input side of a redirection failed: the read-only [open], or the
    [dup2] onto descriptor 0, returned -1. *)
Definition is_failed_input_setup (e : event) : bool :=
  match e with
  | EvOpen _ flags _ ret => (flags =? Sys.O_RDONLY) && (ret =? -1)
  | EvDup2 _ newfd ret => (newfd =? 0) && (ret =? -1)
  | _ => false
  end.

(** The tags and the code of a record fit together. *)
Definition record_ok (st : last_status) : Prop :=
  match exited st, terminated st with
  | true, true => False
  | true, false => 0 ≤ code st ≤ 255
  | false, true => 1 ≤ code st ≤ 126
  | false, false => code st = 0
  end.

(** A poll in which the process [pid] has exited with [value] and every
    other process is still running. *)
Definition only_exited (pid value : Z) : nat → Z → Z * Z :=
  λ _ p, if p =? pid then (pid, Sys.W_EXITCODE value 0) else (0, 0).

(** The state whose table is full: its slots hold the process ids 1 to 20. *)
Definition full_table_shell : shell :=
  set_background_processes (seqZ 1 (Z.of_nat MAX_BG_PC)) initial_shell.

(** The world after a foreground command whose wait failed in the initial
    state: the child 55 was not waited for and no slot holds it. *)
Definition abandoned_child_world : world :=
  {| w_shell := initial_shell; w_children := {[55]} |}.

(** The world after a foreground command that exited with value 3 in the
    initial state, and a run from there without a foreground wait:
    [sleep 5 &] is started as process 78, then SIGTSTP is delivered. *)
Definition exited3_world : world :=
  {| w_shell := set_prev_fg_status (record_of (ExitedWithCode 3)) initial_shell;
     w_children := ∅ |}.

Definition quiet_turn_trace : list event :=
  trace (main_loop_body (shell_kernel 78 0 still_running) "sleep 5 &" (w_shell exited3_world)).

Definition quiet_world : world :=
  {| w_shell :=
       {| fg_only := true;
          background_processes := <[0%nat := 78]> (replicate MAX_BG_PC 0);
          prev_fg_status := record_of (ExitedWithCode 3) |};
     w_children := Kern.children_after quiet_turn_trace ∅ |}.

(** The turn of the loop on the line [sleep 5] in the initial state, when
    the child 77 is killed by SIGINT, and the world after it. *)
Definition fg_killed_trace : list event :=
  trace (main_loop_body (shell_kernel 77 2 still_running) "sleep 5" initial_shell).

Definition fg_killed_world : world :=
  {| w_shell := set_prev_fg_status (record_of (KilledBySignal 2)) initial_shell;
     w_children := Kern.children_after fg_killed_trace ∅ |}.

(** The same turn when the wait fails and the status variable, which
    nothing wrote, holds 5: the child 77 is not waited for. *)
Definition fg_wait_failed_trace : list event :=
  trace (main_loop_body (interrupted_kernel 77 5) "sleep 5" initial_shell).

Definition fg_wait_failed_world : world :=
  {| w_shell :=
       set_prev_fg_status {| exited := false; terminated := true; code := 5 |} initial_shell;
     w_children := Kern.children_after fg_wait_failed_trace ∅ |}.

(** The world after [sleep 5 &] and three deliveries of SIGTSTP. *)
Definition three_banners_world : world :=
  {| w_shell := set_fg_only true bg_started_shell;
     w_children := w_children bg_started_world |}.

(** ** Proof automation *)

(** Case analysis on the paths of a command and on the answers of the
    kernel, until the run is a closed term. *)
Ltac branch_on_answers :=
  repeat (simpl;
    match goal with
    | |- context [if ?b then _ else _] => destruct b eqn:?
    end); simpl.

Ltac child_cases cmd :=
  destruct cmd as [[|? ?] [?|] [?|] ?]; branch_on_answers.

(** A hypothesis about an answer of the kernel that contradicts the
    branch taken. *)
Ltac absurd_answer :=
  match goal with
  | H : -1 = ?x, H' : (?x =? -1) = false |- _ => rewrite <- H in H'; discriminate H'
  | H : ?x = -1, H' : (?x =? -1) = false |- _ => rewrite H in H'; discriminate H'
  | H : ?b = false, H' : ?b = true |- _ => rewrite H in H'; discriminate H'
  end.


(** * Properties *)

(** ** The monad of processes *)

Lemma bind_return_inv {A B} (m : proc A) (f : A → proc B) tr b :
  (m ≫= f) = (tr, Return b) →
  ∃ tr1 a tr2, m = (tr1, Return a) ∧ f a = (tr2, Return b) ∧ tr = tr1 ++ tr2.
Proof.
  destruct m as [tr1 [a| | | |]]; simpl; try discriminate.
  destruct (f a) as [tr2 o] eqn:Hf. intros [= <- ->]. eauto 6.
Qed.

Lemma bind_return {A B} (m : proc A) (f : A → proc B) tr1 a :
  m = (tr1, Return a) → (m ≫= f) = (tr1 ++ trace (f a), result (f a)).
Proof. intros ->. simpl. by destruct (f a). Qed.

(** ** The status words of [waitpid] *)

Lemma status_word_exited c core :
  0 ≤ c < 256 →
  Sys.WIFSIGNALED (status_word (ExitedWithCode c) core) = false ∧
  Sys.WIFEXITED (status_word (ExitedWithCode c) core) = true ∧
  Sys.WEXITSTATUS (status_word (ExitedWithCode c) core) = c.
Proof.
  intros Hc. simpl.
  assert (Hall : forallb (λ c, negb (Sys.WIFSIGNALED (Sys.W_EXITCODE c 0)) &&
                               Sys.WIFEXITED (Sys.W_EXITCODE c 0) &&
                               (Sys.WEXITSTATUS (Sys.W_EXITCODE c 0) =? c))
                         (seqZ 0 256) = true) by (vm_compute; reflexivity).
  rewrite forallb_forall in Hall.
  specialize (Hall c). rewrite <- list_elem_of_In, elem_of_seqZ in Hall.
  specialize (Hall ltac:(lia)).
  apply andb_prop in Hall as [Hall H3]. apply andb_prop in Hall as [H1 H2].
  apply negb_true_iff in H1. apply Z.eqb_eq in H3. done.
Qed.

Lemma status_word_signaled sig core :
  1 ≤ sig ≤ 64 →
  Sys.WIFSIGNALED (status_word (KilledBySignal sig) core) = true ∧
  Sys.WIFEXITED (status_word (KilledBySignal sig) core) = false ∧
  Sys.WTERMSIG (status_word (KilledBySignal sig) core) = sig.
Proof.
  intros Hs. simpl.
  assert (Hall : forallb (λ s, forallb (λ core : bool,
              let w := Z.lor s (if core then 128 else 0) in
              Sys.WIFSIGNALED w && negb (Sys.WIFEXITED w) && (Sys.WTERMSIG w =? s))
              [true; false]) (seqZ 1 64) = true) by (vm_compute; reflexivity).
  rewrite forallb_forall in Hall.
  specialize (Hall sig). rewrite <- list_elem_of_In, elem_of_seqZ in Hall.
  specialize (Hall ltac:(lia)). rewrite forallb_forall in Hall.
  specialize (Hall core). simpl in Hall.
  assert (Hin : In core [true; false]) by (destruct core; simpl; auto).
  apply Hall in Hin. 
  apply andb_prop in Hin as [Hin H3]. apply andb_prop in Hin as [H1 H2].
  apply negb_true_iff in H2. apply Z.eqb_eq in H3. done.
Qed.

(** The two tests of the status word never hold together. *)
Lemma exited_signaled_exclusive status :
  Sys.WIFEXITED status = true → Sys.WIFSIGNALED status = false.
Proof.
  unfold Sys.WIFEXITED, Sys.WIFSIGNALED, Sys.WTERMSIG.
  intros H%Z.eqb_eq. rewrite H. reflexivity.
Qed.

(** ** The SIGTSTP handler *)

(** C9: every delivery of SIGTSTP flips [fg_only] and writes exactly one
    banner, the entering one when the flag was false and the exiting one
    when it was true; two deliveries in a row, from a state where the flag
    is false, write the entering banner and then the exiting banner, once
    each, and give the starting state back. *)
Theorem sigtstp_toggle_involution (sh : shell) (bg : list Z) (st : last_status) :
  handle_SIGTSTP sh =
    ([EvStdout (if fg_only sh then msg_exit else msg_enter)],
     Return (set_fg_only (negb (fg_only sh)) sh)) ∧
  msg_enter = nl +:+ "Entering foreground-only mode (& is now ignored)" +:+ nl ∧
  msg_exit = nl +:+ "Exiting foreground-only mode" +:+ nl ∧
  (handle_SIGTSTP (Shell false bg st) ≫= handle_SIGTSTP) =
    ([EvStdout msg_enter; EvStdout msg_exit], Return (Shell false bg st)) ∧
  (handle_SIGTSTP sh ≫= handle_SIGTSTP) =
    ([EvStdout (if fg_only sh then msg_exit else msg_enter);
      EvStdout (if fg_only sh then msg_enter else msg_exit)], Return sh).
Proof.
  repeat split; try reflexivity.
  - unfold handle_SIGTSTP. by destruct (fg_only sh).
  - destruct sh as [[] bg' st']; reflexivity.
Qed.

(** ** The initial state and the [status] built-in *)

(** C8, as stated, fails: the record the shell starts with is not the one
    that carries exited-with-code 0 (its [exited] flag is false). *)
Lemma initial_status_not_exited_with_code :
  ¬ (fg_only initial_shell = false ∧
     prev_fg_status initial_shell = record_of (ExitedWithCode 0) ∧
     status_builtin initial_shell = ([EvStdout msg_exit_status_0], Return tt)).
Proof. intros (_ & H & _). discriminate H. Qed.

(** ** The reaper, slot by slot *)

Lemma check_slot_eq k i (bg : list Z) pid :
  bg !! i = Some pid →
  check_slot k i bg = (slot_events k i pid, Return (<[i := slot_after k i pid]> bg)).
Proof.
  intros Hi. unfold check_slot, slot_events, slot_after. rewrite Hi.
  destruct (pid =? 0) eqn:Hp; simpl.
  - apply Z.eqb_eq in Hp as ->. by rewrite list_insert_id.
  - destruct (k_poll k i pid) as [ret st]; simpl.
    destruct (0 <? ret); simpl.
    + by destruct (Sys.WIFEXITED st), (Sys.WIFSIGNALED st).
    + by rewrite list_insert_id.
Qed.

Lemma check_slot_outside k i (bg : list Z) :
  bg !! i = None → check_slot k i bg = ([], Return bg).
Proof. intros Hi. unfold check_slot. by rewrite Hi. Qed.

Lemma check_slot_free k i (bg : list Z) :
  bg !! i = Some 0 → check_slot k i bg = ([], Return bg).
Proof.
  intros Hi. rewrite (check_slot_eq _ _ _ 0 Hi).
  unfold slot_events, slot_after. simpl. by rewrite list_insert_id.
Qed.

Lemma check_slots_spec k n i (bg : list Z) :
  ∃ tr bg',
    check_slots k n i bg = (tr, Return bg') ∧
    length bg' = length bg ∧
    (∀ j pid, bg !! j = Some pid →
       bg' !! j = Some (if decide (i ≤ j < i + n)%nat then slot_after k j pid else pid)) ∧
    (∀ e, e ∈ tr ↔
       ∃ j pid, (i ≤ j < i + n)%nat ∧ bg !! j = Some pid ∧ e ∈ slot_events k j pid).
Proof.
  revert i bg. induction n as [|n IH]; intros i bg.
  - exists [], bg. split; [done|]. split; [done|]. split.
    + intros j pid Hj. case_decide; [lia|done].
    + intros e. split; [by intros ?%elem_of_nil|]. intros (j & pid & ? & _). lia.
  - simpl. destruct (bg !! i) as [pid|] eqn:Hi.
    + rewrite (check_slot_eq _ _ _ _ Hi). simpl.
      destruct (IH (S i) (<[i := slot_after k i pid]> bg)) as (tr2 & bg' & Heq & Hlen & Hlook & Hev).
      rewrite Heq. exists (slot_events k i pid ++ tr2), bg'.
      split; [done|]. split; [by rewrite Hlen, length_insert|]. split.
      * intros j p Hj. destruct (decide (j = i)) as [->|Hne].
        -- assert (p = pid) as -> by congruence.
           rewrite (Hlook i (slot_after k i pid)).
           ++ rewrite decide_False by lia. by rewrite decide_True by lia.
           ++ apply list_lookup_insert_eq. by eapply lookup_lt_Some.
        -- rewrite (Hlook j p) by (by rewrite list_lookup_insert_ne).
           repeat case_decide; try done; lia.
      * intros e. rewrite elem_of_app, Hev. split.
        -- intros [He | (j & p & Hr & Hj & He)].
           ++ exists i, pid. split; [lia|done].
           ++ exists j, p. split; [lia|]. split; [|done].
              by rewrite list_lookup_insert_ne in Hj by lia.
        -- intros (j & p & Hr & Hj & He). destruct (decide (j = i)) as [->|Hne].
           ++ left. congruence.
           ++ right. exists j, p. split; [lia|]. split; [|done].
              by rewrite list_lookup_insert_ne by lia.
    + rewrite (check_slot_outside _ _ _ Hi). simpl.
      destruct (IH (S i) bg) as (tr2 & bg' & Heq & Hlen & Hlook & Hev).
      rewrite Heq. exists tr2, bg'. split; [done|]. split; [done|].
      apply lookup_ge_None in Hi. split.
      * intros j p Hj. pose proof (lookup_lt_Some _ _ _ Hj).
        rewrite (Hlook j p Hj). repeat case_decide; try done; lia.
      * intros e. rewrite Hev. split; intros (j & p & Hr & Hj & He);
          pose proof (lookup_lt_Some _ _ _ Hj); exists j, p; (split; [lia|done]).
Qed.

(** The reaper always comes back, and touches nothing but the table. *)
Lemma check_background_processes_returns k sh :
  ∃ tr bg',
    check_background_processes k sh = (tr, Return (set_background_processes bg' sh)) ∧
    check_slots k MAX_BG_PC 0 (background_processes sh) = (tr, Return bg').
Proof.
  destruct (check_slots_spec k MAX_BG_PC 0 (background_processes sh))
    as (tr & bg' & Heq & _).
  exists tr, bg'. split; [|done]. unfold check_background_processes.
  rewrite Heq. simpl. by rewrite app_nil_r.
Qed.

(** ** The kernel's set of children along a run *)

Lemma children_after_app tr1 tr2 ch :
  Kern.children_after (tr1 ++ tr2) ch = Kern.children_after tr2 (Kern.children_after tr1 ch).
Proof. apply foldl_app. Qed.

Lemma child_answers_ok_app tr1 tr2 ch :
  Kern.child_answers_ok (tr1 ++ tr2) ch ↔
  Kern.child_answers_ok tr1 ch ∧ Kern.child_answers_ok tr2 (Kern.children_after tr1 ch).
Proof.
  revert ch. induction tr1 as [|e tr1 IH]; intros ch; simpl.
  - tauto.
  - rewrite IH. tauto.
Qed.

(** Events that are neither [fork] nor [waitpid] leave the children alone. *)
Lemma children_after_silent tr ch :
  forallb (λ e, negb (is_fork e) && negb (is_wait e)) tr = true →
  Kern.children_after tr ch = ch ∧ Kern.child_answers_ok tr ch.
Proof.
  revert ch. induction tr as [|e tr IH]; intros ch; simpl; [done|].
  intros [He Htr]%andb_prop. destruct e; try discriminate; simpl; auto.
  all: destruct (IH ch Htr); auto.
Qed.

Lemma check_slot_inv k i (bg : list Z) pid ch :
  bg !! i = Some pid →
  slots_inv bg ch →
  Kern.child_answers_ok (slot_events k i pid) ch →
  slots_inv (<[i := slot_after k i pid]> bg) (Kern.children_after (slot_events k i pid) ch).
Proof.
  intros Hi [Hnd Hsub]. unfold slot_events, slot_after.
  destruct (pid =? 0) eqn:Hp; simpl.
  { intros _. apply Z.eqb_eq in Hp as ->. rewrite list_insert_id by done. done. }
  apply Z.eqb_neq in Hp.
  destruct (k_poll k i pid) as [ret st]; simpl.
  destruct (0 <? ret) eqn:Hret.
  - intros [Hok _]. apply Z.ltb_lt in Hret. destruct (Hok Hret) as [-> Hin].
    assert (Hch : Kern.children_after
              (if Sys.WIFEXITED st
               then [EvStdout (msg_bg_exit pid (Sys.WEXITSTATUS st))]
               else if Sys.WIFSIGNALED st
                    then [EvStdout (msg_bg_signal pid (Sys.WTERMSIG st))]
                    else []) (ch ∖ {[pid]}) = ch ∖ {[pid]}).
    { by destruct (Sys.WIFEXITED st), (Sys.WIFSIGNALED st). }
    unfold Kern.children_after in *. rewrite Hch. clear Hch.
    assert (Hlt : (i < length bg)%nat) by by eapply lookup_lt_Some.
    split.
    + intros a b p Ha Hb Hp0.
      destruct (decide (a = i)) as [->|Hai];
        [rewrite list_lookup_insert_eq in Ha by done; congruence|].
      destruct (decide (b = i)) as [->|Hbi];
        [rewrite list_lookup_insert_eq in Hb by done; congruence|].
      rewrite list_lookup_insert_ne in Ha, Hb by done. by eapply Hnd.
    + intros p [j Hj]%list_elem_of_lookup Hp0.
      destruct (decide (j = i)) as [->|Hji];
        [rewrite list_lookup_insert_eq in Hj by done; congruence|].
      rewrite list_lookup_insert_ne in Hj by done.
      apply elem_of_difference. split.
      * apply Hsub; [|done]. apply list_elem_of_lookup. eauto.
      * intros ->%elem_of_singleton. apply Hji. by eapply Hnd.
  - intros _. rewrite list_insert_id by done. done.
Qed.

Lemma check_slots_inv k n i (bg : list Z) ch tr bg' :
  check_slots k n i bg = (tr, Return bg') →
  slots_inv bg ch →
  Kern.child_answers_ok tr ch →
  slots_inv bg' (Kern.children_after tr ch).
Proof.
  revert i bg ch tr bg'. induction n as [|n IH]; intros i bg ch tr bg'; simpl.
  - intros [= <- <-]. done.
  - intros (tr1 & bg1 & tr2 & H1 & H2 & ->)%bind_return_inv Hinv.
    rewrite child_answers_ok_app, children_after_app. intros [Hok1 Hok2].
    eapply IH; [exact H2| |exact Hok2].
    destruct (bg !! i) as [pid|] eqn:Hi.
    + rewrite (check_slot_eq _ _ _ _ Hi) in H1. injection H1 as <- <-.
      by apply check_slot_inv.
    + rewrite (check_slot_outside _ _ _ Hi) in H1. by injection H1 as <- <-.
Qed.

(** ** [add_bg_process] *)

Lemma add_bg_from_spec n i pid (bg : list Z) :
  (∃ j, (i ≤ j < i + n)%nat ∧ bg !! j = Some 0 ∧
        (∀ j', (i ≤ j' < j)%nat → bg !! j' ≠ Some 0) ∧
        add_bg_from n i pid bg = <[j := pid]> bg) ∨
  ((∀ j, (i ≤ j < i + n)%nat → bg !! j ≠ Some 0) ∧ add_bg_from n i pid bg = bg).
Proof.
  revert i. induction n as [|n IH]; intros i; simpl.
  - right. split; [intros; lia|done].
  - destruct (bg !! i) as [p|] eqn:Hi.
    + destruct (p =? 0) eqn:Hp.
      * apply Z.eqb_eq in Hp as ->. left. exists i.
        split; [lia|]. split; [done|]. split; [intros; lia|done].
      * apply Z.eqb_neq in Hp.
        destruct (IH (S i)) as [(j & Hr & Hj & Hfirst & Heq)|[Hnone Heq]].
        -- left. exists j. split; [lia|]. split; [done|]. split; [|done].
           intros j' Hj'. destruct (decide (j' = i)) as [->|]; [congruence|].
           apply Hfirst. lia.
        -- right. split; [|done]. intros j Hj.
           destruct (decide (j = i)) as [->|]; [congruence|]. apply Hnone. lia.
    + right. split; [|done]. intros j Hj Hj0.
      apply lookup_ge_None in Hi. apply lookup_lt_Some in Hj0. lia.
Qed.

Lemma add_bg_from_inv n i pid (bg : list Z) ch :
  pid ∉ ch → slots_inv bg ch → slots_inv (add_bg_from n i pid bg) ({[pid]} ∪ ch).
Proof.
  intros Hfresh [Hnd Hsub].
  assert (Hkeep : slots_inv bg ({[pid]} ∪ ch)).
  { split; [done|]. intros p Hp Hp0. apply elem_of_union_r. by apply Hsub. }
  destruct (add_bg_from_spec n i pid bg) as [(j & _ & Hj & _ & ->)|[_ ->]]; [|done].
  assert (Hlt : (j < length bg)%nat) by by eapply lookup_lt_Some.
  assert (Hnot : ∀ a, bg !! a = Some pid → pid ≠ 0 → False).
  { intros a Ha Hp0. apply Hfresh, Hsub; [|done]. apply list_elem_of_lookup. eauto. }
  split.
  - intros a b p Ha Hb Hp0.
    destruct (decide (a = j)) as [->|Haj], (decide (b = j)) as [->|Hbj]; [done|..].
    + rewrite list_lookup_insert_eq in Ha by done. injection Ha as <-.
      rewrite list_lookup_insert_ne in Hb by done. by destruct (Hnot b).
    + rewrite list_lookup_insert_eq in Hb by done. injection Hb as <-.
      rewrite list_lookup_insert_ne in Ha by done. by destruct (Hnot a).
    + rewrite list_lookup_insert_ne in Ha, Hb by done. by eapply Hnd.
  - intros p [a Ha]%list_elem_of_lookup Hp0.
    destruct (decide (a = j)) as [->|Haj].
    + rewrite list_lookup_insert_eq in Ha by done. injection Ha as <-.
      by apply elem_of_union_l, elem_of_singleton.
    + rewrite list_lookup_insert_ne in Ha by done.
      apply elem_of_union_r, Hsub; [|done]. apply list_elem_of_lookup. eauto.
Qed.

Lemma add_bg_from_length n i pid (bg : list Z) :
  length (add_bg_from n i pid bg) = length bg.
Proof.
  destruct (add_bg_from_spec n i pid bg) as [(j & _ & _ & _ & ->)|[_ ->]]; [|done].
  apply length_insert.
Qed.

(** ** The three branches of [switch (childPid)] *)

Lemma foreground_process_fork_failed k cmd sh :
  k_fork k = -1 →
  foreground_process k cmd sh = ([EvFork (-1); EvPerror ("fork()" +:+ nl)], Exit 1).
Proof. intros Hf. unfold foreground_process, fork. rewrite Hf. reflexivity. Qed.

Lemma background_process_fork_failed k cmd sh :
  k_fork k = -1 →
  background_process k cmd sh = ([EvFork (-1); EvPerror ("fork()" +:+ nl)], Exit 1).
Proof. intros Hf. unfold background_process, fork. rewrite Hf. reflexivity. Qed.

Lemma foreground_process_parent k cmd sh :
  k_fork k ≠ -1 → k_fork k ≠ 0 →
  foreground_process k cmd sh =
    ([EvFork (k_fork k); EvWaitpid (k_fork k) 0 (k_wait k (k_fork k)).1] ++
     (if (k_wait k (k_fork k)).1 =? -1 then [EvPerror "wait"] else []) ++
     (if terminated (classify (k_wait k (k_fork k)).2 (prev_fg_status sh))
      then [EvStdout (msg_terminated
                        (code (classify (k_wait k (k_fork k)).2 (prev_fg_status sh))))]
      else []),
     Return (set_prev_fg_status (classify (k_wait k (k_fork k)).2 (prev_fg_status sh)) sh)).
Proof.
  intros H1 H0. unfold foreground_process, fork, waitpid_blocking.
  apply Z.eqb_neq in H1, H0. simpl. rewrite H1, H0.
  destruct (k_wait k (k_fork k)) as [waited st]. simpl.
  destruct (waited =? -1); simpl;
    destruct (terminated (classify st (prev_fg_status sh))); reflexivity.
Qed.

Lemma background_process_parent k cmd sh :
  k_fork k ≠ -1 → k_fork k ≠ 0 →
  background_process k cmd sh =
    ([EvFork (k_fork k); EvStdout (msg_bg_pid (k_fork k))],
     Return (add_bg_process (k_fork k) sh)).
Proof.
  intros H1 H0. unfold background_process, fork.
  apply Z.eqb_neq in H1, H0. simpl. rewrite H1, H0. reflexivity.
Qed.

(** In the child, neither function comes back to [main]. *)
Lemma foreground_process_child_no_return k cmd sh sh' :
  k_fork k = 0 → result (foreground_process k cmd sh) ≠ Return sh'.
Proof.
  intros H0. unfold foreground_process, fork, open, dup2, execvp. rewrite H0.
  child_cases cmd; done.
Qed.

Lemma background_process_child_no_return k cmd sh sh' :
  k_fork k = 0 → result (background_process k cmd sh) ≠ Return sh'.
Proof.
  intros H0. unfold background_process, fork, open, dup2, execvp. rewrite H0.
  child_cases cmd; done.
Qed.

(** ** [dispatch] *)

Lemma dispatch_non_builtin k cmd sh :
  non_builtin cmd →
  dispatch k cmd sh =
    if is_bg cmd && negb (fg_only sh) then background_process k cmd sh
    else foreground_process k cmd sh.
Proof.
  intros (arg0 & rest & Hargv & Hhash & Hexit & Hcd & Hstatus).
  unfold dispatch. rewrite Hargv, Hhash.
  apply String.eqb_neq in Hexit, Hcd, Hstatus. rewrite Hexit, Hcd, Hstatus.
  by destruct (fg_only sh).
Qed.

(** The ways in which [dispatch] comes back to the loop: a built-in, which
    neither forks nor waits and leaves the shell as it was, or the parent
    branch of one of the two process functions. *)
Lemma dispatch_return_cases k cmd sh tr sh' :
  dispatch k cmd sh = (tr, Return sh') →
  (sh' = sh ∧ forallb (λ e, negb (is_fork e) && negb (is_wait e)) tr = true) ∨
  (k_fork k ≠ -1 ∧ k_fork k ≠ 0 ∧
   ((is_bg cmd = true ∧ fg_only sh = false ∧
     background_process k cmd sh = (tr, Return sh')) ∨
    foreground_process k cmd sh = (tr, Return sh'))).
Proof.
  unfold dispatch. destruct (argv cmd) as [|arg0 rest] eqn:Hargv.
  { intros [= <- <-]. by left. }
  destruct (starts_with_hash arg0). { intros [= <- <-]. by left. }
  destruct (String.eqb arg0 "exit"). { discriminate. }
  destruct (String.eqb arg0 "cd").
  { destruct (_ !! _); intros [= <- <-]; by left. }
  destruct (String.eqb arg0 "status").
  { unfold status_builtin.
    destruct (exited (prev_fg_status sh)), (terminated (prev_fg_status sh));
      intros [= <- <-]; by left. }
  intros Hrun. right.
  assert (k_fork k ≠ 0) as H0.
  { intros H0. destruct (is_bg cmd && _).
    - eapply (background_process_child_no_return k cmd sh sh' H0). by rewrite Hrun.
    - eapply (foreground_process_child_no_return k cmd sh sh' H0). by rewrite Hrun. }
  assert (k_fork k ≠ -1) as H1.
  { intros H1. destruct (is_bg cmd && _).
    - by rewrite background_process_fork_failed in Hrun.
    - by rewrite foreground_process_fork_failed in Hrun. }
  split; [done|]. split; [done|].
  destruct (is_bg cmd) eqn:Hbg; simpl in Hrun; [|by right].
  destruct (fg_only sh) eqn:Hfg; simpl in Hrun; [by right|]. by left.
Qed.

(** ** The invariant of the table along the runs of the shell *)

Lemma dispatch_inv k cmd sh tr sh' ch :
  dispatch k cmd sh = (tr, Return sh') →
  Kern.child_answers_ok tr ch →
  length (background_processes sh) = MAX_BG_PC →
  slots_inv (background_processes sh) ch →
  length (background_processes sh') = MAX_BG_PC ∧
  slots_inv (background_processes sh') (Kern.children_after tr ch).
Proof.
  intros Hrun Hok Hlen Hinv.
  destruct (dispatch_return_cases _ _ _ _ _ Hrun)
    as [[-> Hsilent]|(H1 & H0 & [(_ & _ & Hbg)|Hfg])].
  - destruct (children_after_silent tr ch Hsilent) as [-> _]. done.
  - rewrite background_process_parent in Hbg by done. injection Hbg as <- <-.
    simpl in Hok. destruct Hok as [[Hge Hfresh] _].
    assert (0 < k_fork k) as Hpos by lia.
    unfold Kern.children_after, add_bg_process.
    cbn [foldl Kern.child_step background_processes set_background_processes].
    rewrite (proj2 (Z.ltb_lt _ _) Hpos).
    split; [by rewrite add_bg_from_length|]. apply add_bg_from_inv; auto.
  - rewrite foreground_process_parent in Hfg by done. injection Hfg as <- <-.
    simpl in Hok. simpl. split; [done|]. destruct Hok as [[Hge Hfresh] [Hwait _]].
    assert (0 < k_fork k) as Hpos by lia. specialize (Hfresh Hpos).
    rewrite (proj2 (Z.ltb_lt _ _) Hpos) in Hwait.
    assert (Hch : ∀ tr' c, forallb (λ e, negb (is_fork e) && negb (is_wait e)) tr' = true →
              Kern.children_after tr' c = c)
      by (intros tr' c Hs; by destruct (children_after_silent tr' c Hs)).
    rewrite Hch by (destruct (_ =? -1), (terminated _); reflexivity).
    rewrite (proj2 (Z.ltb_lt _ _) Hpos).
    destruct Hinv as [Hnd Hsub]. split; [done|]. intros p Hp Hp0.
    specialize (Hsub p Hp Hp0).
    destruct (0 <? (k_wait k (k_fork k)).1) eqn:Hw.
    + apply Z.ltb_lt in Hw. destruct (Hwait Hw) as [-> _].
      apply elem_of_difference. split; [by apply elem_of_union_r|].
      intros ->%elem_of_singleton. done.
    + by apply elem_of_union_r.
Qed.

Lemma parse_input_trace input tr cmd :
  parse_input input = (tr, Return cmd) → tr = [EvStdout ": "].
Proof.
  unfold parse_input. destruct (parse_tokens _ _); simpl; [|discriminate].
  by intros [= <- _].
Qed.

Lemma main_loop_body_inv k input sh tr sh' ch :
  main_loop_body k input sh = (tr, Return sh') →
  Kern.child_answers_ok tr ch →
  length (background_processes sh) = MAX_BG_PC →
  slots_inv (background_processes sh) ch →
  length (background_processes sh') = MAX_BG_PC ∧
  slots_inv (background_processes sh') (Kern.children_after tr ch).
Proof.
  unfold main_loop_body.
  intros (tr1 & sh1 & tr2 & Hreap & Hrest & ->)%bind_return_inv.
  apply bind_return_inv in Hrest as (tr3 & cmd & tr4 & Hparse & Hdisp & ->).
  apply parse_input_trace in Hparse as ->.
  destruct (check_background_processes_returns k sh) as (tr1' & bg1 & Heq & Hslots).
  rewrite Heq in Hreap. injection Hreap as <- <-.
  rewrite !child_answers_ok_app, !children_after_app.
  intros (Hok1 & _ & Hok4) Hlen Hinv.
  destruct (check_slots_spec k MAX_BG_PC 0 (background_processes sh))
    as (tr1'' & bg1' & Heq' & Hlen1 & _).
  rewrite Hslots in Heq'. injection Heq' as <- <-.
  eapply dispatch_inv; [exact Hdisp|exact Hok4|simpl; congruence|].
  simpl. eapply check_slots_inv; eauto.
Qed.

(** What delivery of a signal does to the shell in its loop. *)
Lemma deliver_shell_signals sig sh :
  deliver shell_signals sig sh =
    if decide (sig = Sys.SIGTSTP) then handle_SIGTSTP sh
    else if decide (sig = Sys.SIGINT) then handle_SIGINT sh
    else ([], Killed sig).
Proof.
  unfold deliver, Kern.disposition_of, shell_signals. simpl.
  unfold Kern.sigs_after. simpl.
  repeat case_decide; subst; simplify_map_eq; reflexivity.
Qed.

Lemma step_signal_cases sig sh tr sh' :
  deliver shell_signals sig sh = (tr, Return sh') →
  background_processes sh' = background_processes sh ∧
  prev_fg_status sh' = prev_fg_status sh ∧
  forallb (λ e, negb (is_fork e) && negb (is_wait e)) tr = true.
Proof.
  rewrite deliver_shell_signals. repeat case_decide; [| |discriminate].
  - unfold handle_SIGTSTP. destruct (fg_only sh); intros [= <- <-]; done.
  - intros [= <- <-]. done.
Qed.

Lemma step_inv w tr w' : step w tr w' → table_inv w → table_inv w'.
Proof.
  intros Hstep (Hlen & Hnd & Hsub). destruct Hstep as [k input w tr sh' Hrun Hok|sig w tr sh' Hsig].
  - destruct (main_loop_body_inv _ _ _ _ _ _ Hrun Hok Hlen (conj Hnd Hsub)) as [? [? ?]].
    done.
  - destruct (step_signal_cases _ _ _ _ Hsig) as (Hbg & _ & _).
    unfold table_inv. simpl. rewrite Hbg. done.
Qed.

Lemma initial_table_inv : table_inv initial_world.
Proof.
  split; [reflexivity|]. split.
  - intros i j pid Hi Hj Hp. unfold initial_world, initial_shell in Hi.
    cbn [w_shell background_processes] in Hi.
    apply lookup_replicate in Hi as [-> _]. done.
  - intros pid Hin Hp. unfold initial_world, initial_shell in Hin.
    cbn [w_shell background_processes] in Hin.
    apply elem_of_replicate in Hin as [-> _]. done.
Qed.

Lemma run_inv w tr w' : run w tr w' → table_inv w → table_inv w'.
Proof. induction 1; eauto using step_inv. Qed.

(** ** The background job reaper *)

Lemma child_answers_wait tr ch pid options ret :
  Kern.child_answers_ok tr ch → EvWaitpid pid options ret ∈ tr → 0 < ret → ret = pid.
Proof.
  revert ch. induction tr as [|e tr IH]; intros ch; simpl.
  - by intros _ ?%elem_of_nil.
  - intros [He Hok] [Heq|Hin]%elem_of_cons Hret.
    + subst e. by destruct (He Hret).
    + by eapply IH.
Qed.

Lemma slot_events_wait k i pid p options ret :
  EvWaitpid p options ret ∈ slot_events k i pid →
  p = pid ∧ options = Sys.WNOHANG ∧ ret = (k_poll k i pid).1 ∧ pid ≠ 0.
Proof.
  unfold slot_events. destruct (pid =? 0) eqn:Hp; [by intros ?%elem_of_nil|].
  apply Z.eqb_neq in Hp.
  intros [[= -> -> ->]|Hin]%elem_of_cons; [done|].
  repeat match goal with
         | H : _ ∈ (if ?b then _ else _) |- _ => destruct b
         end;
    repeat (apply elem_of_cons in Hin as [Hin|Hin]; [discriminate|]);
    by apply elem_of_nil in Hin.
Qed.

(** C4: in every state the shell reaches, the table has its 20 slots, no
    process id occupies two of them, and every occupied slot holds a child
    that was not waited for.  Every turn of the loop begins with the
    reaper.  The reaper always returns; all its waits are [WNOHANG] waits,
    one for each occupied slot; a slot is set to 0 exactly when that wait
    reports the process, and then the line "background pid P is done: exit
    value E" is printed for an exit, or else "background pid P is done:
    terminated by signal S" for a signal, with that process id; the slot is
    left as it was otherwise; a free slot stays free; the table still has
    no duplicates afterwards; and polling a slot that holds 0 does nothing,
    whatever the kernel would answer. *)
Theorem reaper_table_invariant (k : kernel) (tr0 : list event) (w : world) :
  run initial_world tr0 w →
  Kern.child_answers_ok (trace (check_background_processes k (w_shell w))) (w_children w) →
  let bg := background_processes (w_shell w) in
  (length bg = MAX_BG_PC ∧ no_duplicate_pids bg ∧
   ∀ pid, pid ∈ bg → pid ≠ 0 → pid ∈ w_children w) ∧
  (∀ input, trace (check_background_processes k (w_shell w))
              `prefix_of` trace (main_loop_body k input (w_shell w))) ∧
  ∃ tr bg',
    check_background_processes k (w_shell w) =
      (tr, Return (set_background_processes bg' (w_shell w))) ∧
    (∀ pid options ret, EvWaitpid pid options ret ∈ tr → options = Sys.WNOHANG) ∧
    (∀ (i : nat) pid, bg !! i = Some pid → pid ≠ 0 →
       EvWaitpid pid Sys.WNOHANG (k_poll k i pid).1 ∈ tr ∧
       if decide (0 < (k_poll k i pid).1) then
         bg' !! i = Some 0 ∧
         (Sys.WIFEXITED (k_poll k i pid).2 = true →
            EvStdout ("background pid " +:+ pretty pid +:+ " is done: exit value " +:+
                      pretty (Sys.WEXITSTATUS (k_poll k i pid).2) +:+ nl) ∈ tr) ∧
         (Sys.WIFEXITED (k_poll k i pid).2 = false →
          Sys.WIFSIGNALED (k_poll k i pid).2 = true →
            EvStdout ("background pid " +:+ pretty pid +:+
                      " is done: terminated by signal " +:+
                      pretty (Sys.WTERMSIG (k_poll k i pid).2) +:+ nl) ∈ tr)
       else bg' !! i = Some pid) ∧
    (∀ i : nat, bg !! i = Some 0 → bg' !! i = Some 0) ∧
    no_duplicate_pids bg' ∧
    (∀ k' (i : nat), bg' !! i = Some 0 → check_slot k' i bg' = ([], Return bg')).
Proof.
  intros Hrun Hok bg. subst bg.
  pose proof (run_inv _ _ _ Hrun initial_table_inv) as (Hlen & Hnd & Hsub).
  split; [done|]. split.
  { intros input. unfold main_loop_body.
    destruct (check_background_processes k (w_shell w)) as [tr1 [sh1| | | |]];
      simpl; try done.
    destruct (_ ≫= _). simpl. by apply prefix_app_r. }
  destruct (check_background_processes_returns k (w_shell w)) as (tr & bg' & Heq & Hslots).
  rewrite Heq in Hok. simpl in Hok.
  destruct (check_slots_spec k MAX_BG_PC 0 (background_processes (w_shell w)))
    as (tr' & bg'' & Heq' & Hlen' & Hlook & Hev).
  rewrite Hslots in Heq'. injection Heq' as <- <-.
  exists tr, bg'. split; [done|]. split; [|split; [|split; [|split]]].
  - intros pid options ret (j & p & _ & _ & Hin)%Hev.
    by apply slot_events_wait in Hin as (_ & -> & _).
  - intros i pid Hi Hp.
    assert (Hrange : (0 ≤ i < 0 + MAX_BG_PC)%nat).
    { apply lookup_lt_Some in Hi. lia. }
    assert (Hwait : EvWaitpid pid Sys.WNOHANG (k_poll k i pid).1 ∈ tr).
    { apply Hev. exists i, pid. split; [done|]. split; [done|].
      unfold slot_events. rewrite (proj2 (Z.eqb_neq _ _) Hp). apply elem_of_cons. by left. }
    split; [done|]. rewrite (Hlook i pid Hi), (decide_True _ _ Hrange).
    unfold slot_after. rewrite (proj2 (Z.eqb_neq _ _) Hp).
    case_decide as Hret.
    + pose proof (child_answers_wait _ _ _ _ _ Hok Hwait Hret) as Hsame.
      rewrite (proj2 (Z.ltb_lt _ _) Hret). split; [done|].
      split; [intros Hex|intros Hex Hsig]; apply Hev; exists i, pid;
        (split; [done|]); (split; [done|]); unfold slot_events;
        rewrite (proj2 (Z.eqb_neq _ _) Hp), (proj2 (Z.ltb_lt _ _) Hret), Hex, ?Hsig, Hsame;
        apply elem_of_cons; right; apply elem_of_cons; by left.
    + by rewrite (proj2 (Z.ltb_ge _ _)) by lia.
  - intros i Hi. rewrite (Hlook i 0 Hi). by case_decide.
  - eapply check_slots_inv; [exact Hslots|split; eassumption|exact Hok].
  - intros k' i Hi. by apply check_slot_free.
Qed.

(** The state after [sleep 5 &] is reached, and the reaper then finds the
    child 77 exited with value 0. *)
Lemma reaper_table_invariant_witness :
  run initial_world bg_started_trace bg_started_world ∧
  background_processes bg_started_shell !! 0%nat = Some 77 ∧
  ∃ tr bg',
    check_background_processes (shell_kernel 78 0 (all_exited 0)) bg_started_shell =
      (tr, Return (set_background_processes bg' bg_started_shell)) ∧
    EvStdout ("background pid 77 is done: exit value 0" +:+ nl) ∈ tr ∧
    bg' !! 0%nat = Some 0.
Proof.
  assert (Hrun : run initial_world bg_started_trace bg_started_world).
  { apply (run_step initial_world [] initial_world bg_started_trace).
    - constructor.
    - apply (step_loop (shell_kernel 77 0 still_running) "sleep 5 &" initial_world).
      + reflexivity.
      + simpl. repeat split; try lia. intros _. set_solver. }
  assert (Hok : Kern.child_answers_ok
            (trace (check_background_processes (shell_kernel 78 0 (all_exited 0))
                      (w_shell bg_started_world)))
            (w_children bg_started_world)).
  { simpl. split; [|done]. intros _. split; [done|set_solver]. }
  split; [exact Hrun|]. split; [reflexivity|].
  destruct (reaper_table_invariant (shell_kernel 78 0 (all_exited 0))
              bg_started_trace bg_started_world Hrun Hok)
    as (_ & _ & tr & bg' & Heq & _ & Hslot & _).
  exists tr, bg'. split; [exact Heq|].
  destruct (Hslot 0%nat 77 eq_refl ltac:(lia)) as [_ Hcase].
  rewrite decide_True in Hcase by (simpl; lia).
  destruct Hcase as (Hclear & Hexit & _). split; [|exact Hclear].
  apply (Hexit eq_refl).
Defined.

(** ** Background execution *)

(** C3: in the shell, after [fork] has given the child its process id,
    [background_process] prints the line "background pid is P" and returns
    without any wait; P goes into the first slot that holds 0, and the table
    is left as it is when none of its 20 slots holds 0; [fg_only] and the
    record of the last foreground status are not touched.  The reaper, which
    reports background terminations, never touches that record either. *)
Theorem background_process_records_pid (k : kernel) (cmd : command_line) (sh : shell) :
  0 < k_fork k →
  length (background_processes sh) = MAX_BG_PC →
  ∃ sh',
    background_process k cmd sh =
      ([EvFork (k_fork k); EvStdout (msg_bg_pid (k_fork k))], Return sh') ∧
    msg_bg_pid (k_fork k) = "background pid is " +:+ pretty (k_fork k) +:+ nl ∧
    prev_fg_status sh' = prev_fg_status sh ∧
    fg_only sh' = fg_only sh ∧
    (∀ i : nat,
       background_processes sh !! i = Some 0 →
       (∀ j : nat, (j < i)%nat → background_processes sh !! j ≠ Some 0) →
       background_processes sh' = <[i := k_fork k]> (background_processes sh)) ∧
    (Forall (λ pid, pid ≠ 0) (background_processes sh) →
       background_processes sh' = background_processes sh) ∧
    (∀ k', ∃ tr sh1,
       check_background_processes k' sh' = (tr, Return sh1) ∧
       prev_fg_status sh1 = prev_fg_status sh).
Proof.
  intros Hpos Hlen. exists (add_bg_process (k_fork k) sh).
  split; [apply background_process_parent; lia|]. split; [reflexivity|].
  split; [reflexivity|]. split; [reflexivity|].
  unfold add_bg_process. cbn [background_processes set_background_processes].
  destruct (add_bg_from_spec MAX_BG_PC 0 (k_fork k) (background_processes sh))
    as [(j & Hj & Hj0 & Hfirst & Heq)|[Hnone Heq]]; rewrite Heq; clear Heq.
  - split; [|split].
    + intros i Hi Hbefore. destruct (Nat.lt_trichotomy i j) as [Hlt|[->|Hgt]].
      * destruct (Hfirst i); [lia|done].
      * done.
      * by destruct (Hbefore j).
    + intros Hall. rewrite Forall_lookup in Hall. by destruct (Hall j 0 Hj0).
    + intros k'.
      destruct (check_background_processes_returns k'
                  (set_background_processes
                     (<[j := k_fork k]> (background_processes sh)) sh))
        as (tr & bg' & Heq & _).
      by exists tr, (set_background_processes bg'
                       (set_background_processes
                          (<[j := k_fork k]> (background_processes sh)) sh)).
  - split; [|split].
    + intros i Hi _. destruct (Hnone i); [|done].
      apply lookup_lt_Some in Hi. lia.
    + done.
    + intros k'.
      destruct (check_background_processes_returns k'
                  (set_background_processes (background_processes sh) sh))
        as (tr & bg' & Heq & _).
      by exists tr, (set_background_processes bg'
                       (set_background_processes (background_processes sh) sh)).
Qed.

(** [sleep 5 &] in the initial state: the child 77 takes slot 0. *)
Lemma background_process_records_pid_witness :
  ∃ sh',
    background_process (shell_kernel 77 0 still_running) sleep_bg initial_shell =
      ([EvFork 77; EvStdout (msg_bg_pid 77)], Return sh') ∧
    background_processes sh' = <[0%nat := 77]> (background_processes initial_shell) ∧
    prev_fg_status sh' = prev_fg_status initial_shell.
Proof.
  destruct (background_process_records_pid (shell_kernel 77 0 still_running)
              sleep_bg initial_shell ltac:(simpl; lia) eq_refl)
    as (sh' & Hrun & _ & Hst & _ & Hfree & _).
  exists sh'. split; [exact Hrun|]. split; [|exact Hst].
  apply (Hfree 0%nat eq_refl). intros j Hj. lia.
Defined.

(** With its 20 slots occupied the table is left as it is: the process
    id 99 is not recorded. *)
Example background_process_table_full :
  let sh := set_background_processes (seqZ 1 20) initial_shell in
  background_process (shell_kernel 99 0 still_running) sleep_bg sh =
    ([EvFork 99; EvStdout (msg_bg_pid 99)], Return sh).
Proof. reflexivity. Qed.

(** ** Foreground execution *)

(** What [foreground_process] does in the shell once the wait has come
    back: the events, and the record that is stored. *)
Lemma foreground_process_wait_reports k cmd sh r core :
  0 < k_fork k →
  valid_termination r →
  k_wait k (k_fork k) = (k_fork k, status_word r core) →
  foreground_process k cmd sh =
    ([EvFork (k_fork k); EvWaitpid (k_fork k) 0 (k_fork k)] ++
     match r with
     | KilledBySignal sig => [EvStdout ("terminated by signal " +:+ pretty sig +:+ nl)]
     | ExitedWithCode _ => []
     end,
     Return {| fg_only := fg_only sh;
               background_processes := background_processes sh;
               prev_fg_status := record_of r |}).
Proof.
  intros Hpos Hvalid Hwait.
  rewrite foreground_process_parent by lia. rewrite Hwait.
  cbn [fst snd]. rewrite (proj2 (Z.eqb_neq (k_fork k) (-1))) by lia.
  unfold classify. destruct r as [c|sig].
  - destruct (status_word_exited c core Hvalid) as (-> & -> & ->). reflexivity.
  - destruct (status_word_signaled sig core Hvalid) as (-> & _ & ->). reflexivity.
Qed.

(** C1, as stated, fails on a run in which the blocking wait fails
    ([waitpid] returns -1, as it does when SIGTSTP, whose handler is
    installed without [SA_RESTART], arrives during the wait).  After a
    foreground command that was killed by signal 2, the wait for [sleep 5]
    fails while the status variable, which nothing wrote, holds 127: the
    shell goes back to its loop although no termination of the child was
    reported, and prints "terminated by signal 2" once more. *)
Lemma foreground_process_wait_failed :
  let sh := set_prev_fg_status (record_of (KilledBySignal 2)) initial_shell in
  let run := foreground_process (interrupted_kernel 77 127) sleep_fg sh in
  run = ([EvFork 77; EvWaitpid 77 0 (-1); EvPerror "wait";
          EvStdout ("terminated by signal 2" +:+ nl)],
         Return sh) ∧
  ¬ (∃ r, EvWaitpid 77 0 77 ∈ trace run ∧
          result run = Return (set_prev_fg_status (record_of r) sh) ∧
          ((∃ text, EvStdout text ∈ trace run) ↔ ∃ sig, r = KilledBySignal sig)).
Proof.
  intros sh run. split; [reflexivity|].
  intros (r & Hin & _). unfold run, trace in Hin. cbn in Hin.
  repeat (apply elem_of_cons in Hin as [Hin|Hin]; [discriminate Hin|]).
  by apply elem_of_nil in Hin.
Qed.

(** C1, amended: in the shell, after [fork] has given the child its process
    id, [foreground_process] makes one [fork] call and one blocking
    [waitpid] call on that very process id.  When the wait reports the
    termination [r] of that child, the record of the last foreground status
    becomes the one that carries [r], whatever it was before, the rest of
    the state is unchanged, and "terminated by signal N" is printed exactly
    when [r] is a death by signal.  When the wait fails, the failure is
    reported and the shell goes back to its loop with [fg_only] and the
    table unchanged. *)
Theorem foreground_process_waits_and_records
    (k : kernel) (cmd : command_line) (sh : shell) :
  0 < k_fork k →
  (∃ events sh',
     foreground_process k cmd sh =
       ([EvFork (k_fork k); EvWaitpid (k_fork k) 0 (k_wait k (k_fork k)).1] ++ events,
        Return sh') ∧
     forallb (λ e, negb (is_fork e) && negb (is_wait e)) events = true ∧
     fg_only sh' = fg_only sh ∧
     background_processes sh' = background_processes sh ∧
     ((k_wait k (k_fork k)).1 = -1 → EvPerror "wait" ∈ events)) ∧
  (∀ r core,
     valid_termination r →
     k_wait k (k_fork k) = (k_fork k, status_word r core) →
     foreground_process k cmd sh =
       ([EvFork (k_fork k); EvWaitpid (k_fork k) 0 (k_fork k)] ++
        match r with
        | KilledBySignal sig => [EvStdout ("terminated by signal " +:+ pretty sig +:+ nl)]
        | ExitedWithCode _ => []
        end,
        Return {| fg_only := fg_only sh;
                  background_processes := background_processes sh;
                  prev_fg_status := record_of r |}) ∧
     ((∃ text, EvStdout text ∈ trace (foreground_process k cmd sh)) ↔
      ∃ sig, r = KilledBySignal sig)).
Proof.
  intros Hpos. split.
  - rewrite foreground_process_parent by lia. do 2 eexists. split; [reflexivity|].
    split; [|split; [reflexivity|split; [reflexivity|]]].
    + rewrite forallb_app. by destruct (_ =? -1), (terminated _).
    + intros ->. apply elem_of_app. left. apply elem_of_cons. by left.
  - intros r core Hvalid Hwait.
    pose proof (foreground_process_wait_reports k cmd sh r core Hpos Hvalid Hwait) as Hrun.
    split; [exact Hrun|]. rewrite Hrun. unfold trace. cbn [fst].
    destruct r as [c|sig]; split.
    + intros [text Hin]. exfalso.
      repeat (apply elem_of_cons in Hin as [Hin|Hin]; [discriminate|]).
      by apply elem_of_nil in Hin.
    + intros [sig Hsig]. discriminate.
    + intros _. by exists sig.
    + intros _. eexists. apply elem_of_app. right. apply elem_of_cons. by left.
Qed.

(** [sleep 5] killed by SIGINT (signal 2): the record becomes
    killed-by-signal 2 and the line is printed; the same command exiting
    with value 0 stores exited-with-code 0 and prints nothing. *)
Lemma foreground_process_waits_and_records_witness :
  foreground_process (shell_kernel 77 2 still_running) sleep_fg initial_shell =
    ([EvFork 77; EvWaitpid 77 0 77; EvStdout ("terminated by signal 2" +:+ nl)],
     Return (set_prev_fg_status (record_of (KilledBySignal 2)) initial_shell)) ∧
  foreground_process (shell_kernel 77 0 still_running) sleep_fg initial_shell =
    ([EvFork 77; EvWaitpid 77 0 77],
     Return (set_prev_fg_status (record_of (ExitedWithCode 0)) initial_shell)).
Proof.
  split.
  - apply (proj2 (foreground_process_waits_and_records (shell_kernel 77 2 still_running)
                    sleep_fg initial_shell ltac:(simpl; lia))
             (KilledBySignal 2) false);
      [simpl; lia|reflexivity].
  - apply (proj2 (foreground_process_waits_and_records (shell_kernel 77 0 still_running)
                    sleep_fg initial_shell ltac:(simpl; lia))
             (ExitedWithCode 0) false);
      [simpl; lia|reflexivity].
Defined.

(** ** Routing of a command *)

(** [foreground_process] never prints the line that announces a background
    process, in the shell or in the child. *)
Lemma foreground_process_no_bg_message k cmd sh :
  forallb (λ e, negb (is_bg_start_message e)) (trace (foreground_process k cmd sh)) = true.
Proof.
  destruct (decide (k_fork k = -1)) as [H1|H1].
  { by rewrite foreground_process_fork_failed. }
  destruct (decide (k_fork k = 0)) as [H0|H0].
  { unfold foreground_process, fork, open, dup2, execvp. rewrite H0.
    child_cases cmd; reflexivity. }
  rewrite foreground_process_parent by done. unfold trace. cbn [fst].
  rewrite !forallb_app. destruct (_ =? -1), (terminated _); reflexivity.
Qed.

(** C2, as stated, fails on a run in which the blocking wait fails.  With
    [fg_only] true the command [sleep 5 &] goes to [foreground_process];
    when its [waitpid] returns -1 (SIGTSTP arrived during the wait) the
    shell reports "wait" and comes back to its prompt, and no wait has
    reported the termination of the child 77: the command has not been
    blocked on until its completion. *)
Lemma dispatch_returns_before_completion :
  let sh := set_fg_only true initial_shell in
  let run := dispatch (interrupted_kernel 77 127) sleep_bg sh in
  non_builtin sleep_bg ∧ is_bg sleep_bg = true ∧ fg_only sh = true ∧
  run = ([EvFork 77; EvWaitpid 77 0 (-1); EvPerror "wait"], Return sh) ∧
  ¬ (∀ k cmd sh sh',
       non_builtin cmd → is_bg cmd = true → fg_only sh = true → 0 < k_fork k →
       result (dispatch k cmd sh) = Return sh' →
       EvWaitpid (k_fork k) 0 (k_fork k) ∈ trace (dispatch k cmd sh)).
Proof.
  intros sh run.
  assert (Hnb : non_builtin sleep_bg).
  { exists "sleep", ["5"]. repeat split; discriminate. }
  split; [exact Hnb|]. split; [reflexivity|]. split; [reflexivity|].
  split; [reflexivity|].
  intros Hclaim.
  specialize (Hclaim (interrupted_kernel 77 127) sleep_bg sh sh Hnb eq_refl eq_refl
                ltac:(simpl; lia) eq_refl).
  unfold trace in Hclaim. cbn in Hclaim.
  repeat (apply elem_of_cons in Hclaim as [Hclaim|Hclaim]; [discriminate Hclaim|]).
  by apply elem_of_nil in Hclaim.
Qed.

(** C2, amended: a command that is not a built-in goes to
    [background_process] when its [is_bg] flag is set and [fg_only] is
    false, and to [foreground_process] in every other case.  In particular,
    with [fg_only] true a command with [is_bg] set runs through
    [foreground_process]: no line announcing a background process is
    printed, the table is not touched, and the shell comes back from the
    call only after one blocking wait on the child.  When that wait reports
    the termination of the child, the shell has blocked until the command
    completed, and the termination is recorded as for any foreground
    command; when the wait fails, the failure is reported and the shell
    comes back without the command having completed. *)
Theorem dispatch_routing (k : kernel) (cmd : command_line) (sh : shell) :
  non_builtin cmd →
  dispatch k cmd sh =
    (if is_bg cmd && negb (fg_only sh) then background_process k cmd sh
     else foreground_process k cmd sh) ∧
  (is_bg cmd = true → fg_only sh = false →
     dispatch k cmd sh = background_process k cmd sh) ∧
  (is_bg cmd = false ∨ fg_only sh = true →
     dispatch k cmd sh = foreground_process k cmd sh ∧
     forallb (λ e, negb (is_bg_start_message e)) (trace (dispatch k cmd sh)) = true ∧
     (∀ sh', result (dispatch k cmd sh) = Return sh' →
        background_processes sh' = background_processes sh ∧
        EvWaitpid (k_fork k) 0 (k_wait k (k_fork k)).1 ∈ trace (dispatch k cmd sh)) ∧
     (0 < k_fork k →
        (∃ events sh',
           dispatch k cmd sh =
             ([EvFork (k_fork k); EvWaitpid (k_fork k) 0 (k_wait k (k_fork k)).1] ++ events,
              Return sh') ∧
           forallb (λ e, negb (is_fork e) && negb (is_wait e)) events = true ∧
           ((k_wait k (k_fork k)).1 = -1 → EvPerror "wait" ∈ events)) ∧
        (∀ r core,
           valid_termination r →
           k_wait k (k_fork k) = (k_fork k, status_word r core) →
           dispatch k cmd sh =
             ([EvFork (k_fork k); EvWaitpid (k_fork k) 0 (k_fork k)] ++
              match r with
              | KilledBySignal sig =>
                  [EvStdout ("terminated by signal " +:+ pretty sig +:+ nl)]
              | ExitedWithCode _ => []
              end,
              Return {| fg_only := fg_only sh;
                        background_processes := background_processes sh;
                        prev_fg_status := record_of r |})))).
Proof.
  intros Hnb. pose proof (dispatch_non_builtin k cmd sh Hnb) as Heq.
  split; [exact Heq|]. split.
  - intros Hbg Hfg. by rewrite Heq, Hbg, Hfg.
  - intros Hcase.
    assert (Hfgp : dispatch k cmd sh = foreground_process k cmd sh).
    { rewrite Heq. destruct Hcase as [->| ->]; [done|]. by rewrite andb_false_r. }
    split; [exact Hfgp|]. rewrite Hfgp.
    split; [apply foreground_process_no_bg_message|]. split.
    + intros sh' Hret.
      assert (k_fork k ≠ 0) as H0.
      { intros H0. by eapply foreground_process_child_no_return. }
      assert (k_fork k ≠ -1) as H1.
      { intros H1. by rewrite foreground_process_fork_failed in Hret. }
      rewrite foreground_process_parent in Hret |- * by done.
      injection Hret as <-. split; [reflexivity|].
      unfold trace. cbn [fst]. apply elem_of_app. left.
      apply elem_of_cons. right. apply elem_of_cons. by left.
    + intros Hpos. split.
      * rewrite foreground_process_parent by lia. do 2 eexists. split; [reflexivity|].
        split.
        -- rewrite forallb_app. by destruct (_ =? -1), (terminated _).
        -- intros ->. apply elem_of_app. left. apply elem_of_cons. by left.
      * intros r core Hvalid Hwait.
        by apply (foreground_process_wait_reports k cmd sh r core).
Qed.

(** [sleep 5 &] while [fg_only] is true runs in the foreground: the shell
    waits for the child 77 and records its exit; while [fg_only] is false
    it runs in the background. *)
Lemma dispatch_routing_witness :
  dispatch (shell_kernel 77 0 still_running) sleep_bg (set_fg_only true initial_shell) =
    ([EvFork 77; EvWaitpid 77 0 77],
     Return (set_prev_fg_status (record_of (ExitedWithCode 0))
               (set_fg_only true initial_shell))) ∧
  dispatch (shell_kernel 77 0 still_running) sleep_bg initial_shell =
    background_process (shell_kernel 77 0 still_running) sleep_bg initial_shell.
Proof.
  assert (Hnb : non_builtin sleep_bg).
  { exists "sleep", ["5"]. repeat split; discriminate. }
  split.
  - destruct (dispatch_routing (shell_kernel 77 0 still_running) sleep_bg
                (set_fg_only true initial_shell) Hnb) as (_ & _ & Hfg).
    destruct (Hfg (or_intror eq_refl)) as (_ & _ & _ & Hwait).
    destruct (Hwait ltac:(simpl; lia)) as [_ Hreports].
    apply (Hreports (ExitedWithCode 0) false); [simpl; lia|reflexivity].
  - destruct (dispatch_routing (shell_kernel 77 0 still_running) sleep_bg
                initial_shell Hnb) as (_ & Hbg & _).
    exact (Hbg eq_refl eq_refl).
Defined.

(** ** Exit codes of the child *)





(** ** Redirection in the background child *)

(** C6: when the child of [background_process] reaches the program it was
    asked to run, its descriptor 0 refers to the input path of the command,
    or to [/dev/null] when there is none, opened read-only; its descriptor 1
    refers to the output path, or to [/dev/null] when there is none, opened
    write-only with creation and truncation and mode 0644. *)
Theorem background_child_null_devices
    (k : kernel) (cmd : command_line) (sh : shell)
    (fds : gmap Z Kern.file_description) (tr : list event) (file : string)
    (args : list string) :
  k_fork k = 0 →
  background_process k cmd sh = (tr, Exec file args) →
  Kern.open_answers_ok tr fds →
  Kern.fds_after tr fds !! 0 =
    Some {| Kern.fd_path := match input_file cmd with Some path => path | None => "/dev/null" end;
            Kern.fd_flags := Sys.O_RDONLY;
            Kern.fd_mode := 0 |} ∧
  Kern.fds_after tr fds !! 1 =
    Some {| Kern.fd_path := match output_file cmd with Some path => path | None => "/dev/null" end;
            Kern.fd_flags := Z.lor (Z.lor Sys.O_WRONLY Sys.O_CREAT) Sys.O_TRUNC;
            Kern.fd_mode := 420 |} ∧
  args = argv cmd ∧ head args = Some file.
Proof.
  intros H0. unfold background_process, fork, open, dup2, execvp. rewrite H0.
  set (src := default dev_null (input_file cmd)).
  set (tgt := default dev_null (output_file cmd)).
  assert (Hsrc : src = match input_file cmd with Some path => path | None => "/dev/null" end)
    by (unfold src; by destruct (input_file cmd)).
  assert (Htgt : tgt = match output_file cmd with Some path => path | None => "/dev/null" end)
    by (unfold tgt; by destruct (output_file cmd)).
  rewrite <- Hsrc, <- Htgt. clear Hsrc Htgt. clearbody src tgt.
  destruct (argv cmd) as [|arg0 rest]; branch_on_answers; try discriminate.
  intros [= <- <- <-]. unfold Kern.fds_after. simpl.
  repeat match goal with
         | H : (?x =? -1) = false |- context [?x =? -1] => rewrite H
         end.
  intros (_ & [Hs|Hs] & _ & [Ht|Ht] & _); try absurd_answer.
  rewrite lookup_insert_eq in Ht |- *.
  assert (k_open k tgt output_flags ≠ 0) as Hne.
  { intros Heq. rewrite Heq in Ht. by rewrite lookup_insert_eq in Ht. }
  rewrite lookup_insert_eq.
  split; [|split; [|done]].
  - rewrite lookup_insert_ne by done. rewrite lookup_insert_ne by done.
    by rewrite lookup_insert_eq.
  - by rewrite lookup_insert_eq.
Qed.

(** [sleep 5 &] in a terminal: both standard streams of the child end up on
    [/dev/null]; with [sort < in.txt > out.txt &] they end up on the two
    files. *)
Lemma background_child_null_devices_witness :
  let run1 := background_process (child_kernel "" true) sleep_bg initial_shell in
  let run2 := background_process (child_kernel "" true) sort_files initial_shell in
  (Kern.fd_path <$> Kern.fds_after (trace run1) terminal_fds !! 0) = Some "/dev/null" ∧
  (Kern.fd_path <$> Kern.fds_after (trace run1) terminal_fds !! 1) = Some "/dev/null" ∧
  (Kern.fd_path <$> Kern.fds_after (trace run2) terminal_fds !! 0) = Some "in.txt" ∧
  (Kern.fd_path <$> Kern.fds_after (trace run2) terminal_fds !! 1) = Some "out.txt".
Proof.
  intros run1 run2.
  destruct (background_child_null_devices (child_kernel "" true) sleep_bg initial_shell
              terminal_fds (trace run1) "sleep" ["sleep"; "5"] eq_refl eq_refl)
    as (H10 & H11 & _).
  { simpl. repeat split; right; reflexivity. }
  destruct (background_child_null_devices (child_kernel "" true) sort_files initial_shell
              terminal_fds (trace run2) "sort" ["sort"] eq_refl eq_refl)
    as (H20 & H21 & _).
  { simpl. repeat split; right; reflexivity. }
  rewrite H10, H11, H20, H21. done.
Defined.

(** ** SIGINT *)

Lemma sigs_after_no_sigaction tr tbl :
  forallb (λ e, negb (is_sigaction e)) tr = true → Kern.sigs_after tr tbl = tbl.
Proof.
  revert tbl. induction tr as [|e tr IH]; intros tbl; [done|].
  simpl. intros [He Htr]%andb_prop. unfold Kern.sigs_after in *. simpl.
  rewrite <- (IH tbl Htr) at 2. by destruct e.
Qed.

Lemma child_makes_no_sigaction k cmd sh :
  forallb (λ e, negb (is_sigaction e)) (trace (foreground_process k cmd sh)) = true ∧
  forallb (λ e, negb (is_sigaction e)) (trace (background_process k cmd sh)) = true.
Proof.
  destruct (decide (k_fork k = -1)) as [H1|H1].
  { by rewrite foreground_process_fork_failed, background_process_fork_failed. }
  destruct (decide (k_fork k = 0)) as [H0|H0].
  { unfold foreground_process, background_process, fork, open, dup2, execvp. rewrite H0.
    split; child_cases cmd; reflexivity. }
  rewrite foreground_process_parent, background_process_parent by done.
  split; [|done]. unfold trace. cbn [fst].
  rewrite !forallb_app. destruct (_ =? -1), (terminated _); reflexivity.
Qed.

(** C7, as stated, fails: the child of [sleep 5] reaches [execvp] while the
    disposition of SIGINT is still the handler it inherited from the shell,
    not the default one. *)
Lemma child_reaches_exec_with_sigint_caught :
  let run := foreground_process (child_kernel "" true) sleep_fg initial_shell in
  result run = Exec "sleep" ["sleep"; "5"] ∧
  ¬ (Kern.disposition_of (Kern.sigs_after (trace run) shell_signals) Sys.SIGINT = SigDefault).
Proof. split; [reflexivity|]. vm_compute. discriminate. Qed.

(** C7, amended: SIGINT delivered to the shell runs [handle_SIGINT], which
    does nothing: no event, the same state, and the shell goes on.  The
    child of either process function makes no [sigaction] call: up to
    [execvp] its disposition for SIGINT is the handler inherited from the
    shell, and it is the replacement of the program image that resets it
    to the default, after which SIGINT ends the program. *)
Theorem sigint_caught_by_shell_reset_by_exec
    (k : kernel) (cmd : command_line) (sh : shell) (run : proc shell) :
  run = foreground_process k cmd sh ∨ run = background_process k cmd sh →
  deliver shell_signals Sys.SIGINT sh = ([], Return sh) ∧
  forallb (λ e, negb (is_sigaction e)) (trace run) = true ∧
  Kern.disposition_of (Kern.sigs_after (trace run) shell_signals) Sys.SIGINT =
    SigCatch Fn_handle_SIGINT Sys.SA_RESTART ∧
  Kern.disposition_of (Kern.exec_reset (Kern.sigs_after (trace run) shell_signals))
    Sys.SIGINT = SigDefault ∧
  deliver (Kern.exec_reset (Kern.sigs_after (trace run) shell_signals)) Sys.SIGINT sh =
    ([], Killed Sys.SIGINT).
Proof.
  intros Hrun.
  assert (Hnone : forallb (λ e, negb (is_sigaction e)) (trace run) = true).
  { destruct (child_makes_no_sigaction k cmd sh). by destruct Hrun as [-> | ->]. }
  rewrite (sigs_after_no_sigaction _ _ Hnone).
  split; [by rewrite deliver_shell_signals|]. split; [exact Hnone|].
  split; [reflexivity|]. split; [reflexivity|].
  unfold deliver.
  by replace (Kern.disposition_of (Kern.exec_reset shell_signals) Sys.SIGINT)
    with SigDefault by reflexivity.
Qed.

(** The child of [sleep 5]: no [sigaction] on its way to [execvp]. *)
Lemma sigint_caught_by_shell_reset_by_exec_witness :
  let run := foreground_process (child_kernel "" true) sleep_fg initial_shell in
  trace run = [EvFork 0; EvExecvp "sleep" ["sleep"; "5"]] ∧
  Kern.disposition_of (Kern.exec_reset (Kern.sigs_after (trace run) shell_signals))
    Sys.SIGINT = SigDefault.
Proof.
  intros run. split; [reflexivity|].
  destruct (sigint_caught_by_shell_reset_by_exec (child_kernel "" true) sleep_fg
              initial_shell run (or_introl eq_refl)) as (_ & _ & _ & Hreset & _).
  exact Hreset.
Defined.

(** ** The record of the last foreground status *)

Lemma main_loop_body_status_frame k input sh tr sh' :
  main_loop_body k input sh = (tr, Return sh') →
  forallb (λ e, negb (is_blocking_wait e)) tr = true →
  prev_fg_status sh' = prev_fg_status sh.
Proof.
  unfold main_loop_body.
  intros (tr1 & sh1 & tr2 & Hreap & Hrest & ->)%bind_return_inv.
  apply bind_return_inv in Hrest as (tr3 & cmd & tr4 & Hparse & Hdisp & ->).
  destruct (check_background_processes_returns k sh) as (tr1' & bg1 & Heq & _).
  rewrite Heq in Hreap. injection Hreap as <- <-.
  rewrite !forallb_app. intros [_ [_ Hquiet]%andb_prop]%andb_prop.
  destruct (dispatch_return_cases _ _ _ _ _ Hdisp)
    as [[-> _]|(H1 & H0 & [(_ & _ & Hbg)|Hfg])].
  - reflexivity.
  - rewrite background_process_parent in Hbg by done. by injection Hbg as <- <-.
  - rewrite foreground_process_parent in Hfg by done. injection Hfg as <- <-.
    discriminate Hquiet.
Qed.

Lemma run_status_frame w tr w' :
  run w tr w' →
  forallb (λ e, negb (is_blocking_wait e)) tr = true →
  prev_fg_status (w_shell w') = prev_fg_status (w_shell w).
Proof.
  induction 1 as [|w1 tr1 w2 tr2 w3 Hrun IH Hstep]; [done|].
  rewrite forallb_app. intros [Hq1 Hq2]%andb_prop. rewrite <- (IH Hq1).
  destruct Hstep as [k input w tr sh' Hbody _|sig w tr sh' Hsig]; simpl.
  - by eapply main_loop_body_status_frame.
  - by destruct (step_signal_cases _ _ _ _ Hsig) as (_ & ? & _).
Qed.

(** C8, amended: the shell starts with [fg_only] false and a record that
    carries neither tag ([exited] and [terminated] both false, code 0).  As
    long as no foreground wait has happened the record stays that one, and
    the [status] built-in prints "exit status 0"; a record tagged
    exited-with-code 0 prints "exit value 0" instead. *)
Theorem initial_status_untagged (tr : list event) (w : world) :
  run initial_world tr w →
  forallb (λ e, negb (is_blocking_wait e)) tr = true →
  fg_only initial_shell = false ∧
  prev_fg_status initial_shell = {| exited := false; terminated := false; code := 0 |} ∧
  prev_fg_status (w_shell w) = prev_fg_status initial_shell ∧
  status_builtin (w_shell w) = ([EvStdout ("exit status 0" +:+ nl)], Return tt) ∧
  ∀ sh, prev_fg_status sh = record_of (ExitedWithCode 0) →
    status_builtin sh = ([EvStdout ("exit value 0" +:+ nl)], Return tt).
Proof.
  intros Hrun Hquiet. pose proof (run_status_frame _ _ _ Hrun Hquiet) as Hst.
  split; [reflexivity|]. split; [reflexivity|]. split; [exact Hst|]. split.
  - unfold status_builtin. rewrite Hst. reflexivity.
  - intros sh Hsh. unfold status_builtin. rewrite Hsh. reflexivity.
Qed.

(** After [sleep 5 &] was started from the initial state, [status] still
    prints "exit status 0". *)
Lemma initial_status_untagged_witness :
  status_builtin bg_started_shell = ([EvStdout ("exit status 0" +:+ nl)], Return tt).
Proof.
  assert (Hrun : run initial_world bg_started_trace bg_started_world).
  { apply (run_step initial_world [] initial_world bg_started_trace).
    - constructor.
    - apply (step_loop (shell_kernel 77 0 still_running) "sleep 5 &" initial_world).
      + reflexivity.
      + simpl. repeat split; try lia. intros _. set_solver. }
  destruct (initial_status_untagged bg_started_trace bg_started_world Hrun eq_refl)
    as (_ & _ & _ & Hprint & _).
  exact Hprint.
Defined.

(** ** [parse_input] *)

Lemma parse_tokens_word word rest cmd :
  is_word word → (argc cmd < MAX_ARGS + 1)%nat →
  parse_tokens (word :: rest) cmd = parse_tokens rest (push_arg word cmd).
Proof.
  intros (H1 & H2 & H3) Hlt. apply String.eqb_neq in H1, H2, H3.
  cbn [parse_tokens]. rewrite H1, H2, H3.
  by rewrite (proj2 (Nat.leb_gt _ _) Hlt).
Qed.

Lemma parse_tokens_word_overflow word rest cmd :
  is_word word → (MAX_ARGS + 1 ≤ argc cmd)%nat →
  parse_tokens (word :: rest) cmd = None.
Proof.
  intros (H1 & H2 & H3) Hge. apply String.eqb_neq in H1, H2, H3.
  cbn [parse_tokens]. rewrite H1, H2, H3.
  by rewrite (proj2 (Nat.leb_le _ _) Hge).
Qed.

Lemma parse_tokens_dangling op cmd :
  is_redirect op → parse_tokens [op] cmd = None.
Proof. by intros [-> | ->]. Qed.

Lemma argc_apply_item cmd it :
  argc (apply_item cmd it) = (argc cmd + count_args [it])%nat.
Proof.
  destruct it; unfold argc; simpl; try lia.
  rewrite length_app. simpl. lia.
Qed.

Lemma count_args_cons it items :
  count_args (it :: items) = (count_args [it] + count_args items)%nat.
Proof. by destruct it. Qed.

Lemma line_tokens_cons it items :
  line_tokens (it :: items) = item_tokens it ++ line_tokens items.
Proof. reflexivity. Qed.

(** The loop consumes a well-formed sequence of items one item at a time. *)
Lemma parse_tokens_items items rest cmd :
  Forall well_formed_item items →
  (argc cmd + count_args items ≤ MAX_ARGS + 1)%nat →
  parse_tokens (line_tokens items ++ rest) cmd = parse_tokens rest (foldl apply_item cmd items).
Proof.
  intros Hwf. revert cmd. induction Hwf as [|it items Hit Hwf IH]; intros cmd Hle; [done|].
  rewrite count_args_cons in Hle. rewrite line_tokens_cons, <- app_assoc.
  cbn [foldl]. rewrite <- IH by (rewrite argc_apply_item; lia).
  destruct it as [word| |file|file]; simpl app; try reflexivity.
  apply parse_tokens_word; [done|]. cbn [count_args] in Hle. lia.
Qed.

(** One word too many: the store beyond the end of [argv]. *)
Lemma parse_tokens_items_overflow items rest cmd :
  Forall well_formed_item items →
  (argc cmd ≤ MAX_ARGS + 1)%nat →
  (MAX_ARGS + 1 < argc cmd + count_args items)%nat →
  parse_tokens (line_tokens items ++ rest) cmd = None.
Proof.
  intros Hwf. revert cmd.
  induction Hwf as [|it items Hit Hwf IH]; intros cmd Hle Hlt; [cbn [count_args] in Hlt; lia|].
  rewrite count_args_cons in Hlt. rewrite line_tokens_cons, <- app_assoc.
  destruct it as [word| |file|file]; simpl app; cbn [count_args] in Hlt.
  - destruct (decide (argc cmd = MAX_ARGS + 1)%nat) as [Heq|Hne].
    + apply parse_tokens_word_overflow; [done|lia].
    + rewrite parse_tokens_word by (done || lia).
      apply (IH (apply_item cmd (IArg word))); rewrite argc_apply_item; cbn [count_args]; lia.
  - apply (IH (apply_item cmd IBackground)); rewrite ?argc_apply_item; cbn [count_args]; lia.
  - apply (IH (apply_item cmd (IRedirIn file))); rewrite ?argc_apply_item; cbn [count_args]; lia.
  - apply (IH (apply_item cmd (IRedirOut file))); rewrite ?argc_apply_item; cbn [count_args]; lia.
Qed.

(** Every sequence of tokens is a well-formed sequence of items, possibly
    followed by one redirection operator that nothing follows. *)
Lemma tokens_shape_aux tokens :
  let shape toks :=
    ∃ items, Forall well_formed_item items ∧
      (toks = line_tokens items ∨ ∃ op, is_redirect op ∧ toks = line_tokens items ++ [op]) in
  shape tokens ∧ ∀ t, shape (t :: tokens).
Proof.
  intros shape.
  assert (Hone : ∀ t toks, ¬ is_redirect t → shape toks → shape (t :: toks)).
  { intros t toks Ht (items & Hwf & Hshape).
    destruct (decide (t = "&")) as [->|Hamp].
    - exists (IBackground :: items). split; [by constructor|].
      destruct Hshape as [->|(op & Hop & ->)]; [by left|right; by exists op].
    - assert (is_word t) as Hword.
      { unfold is_redirect in Ht. repeat split; auto. }
      exists (IArg t :: items). split; [by constructor|].
      destruct Hshape as [->|(op & Hop & ->)]; [by left|right; by exists op]. }
  assert (Htwo : ∀ t file toks, is_redirect t → shape toks → shape (t :: file :: toks)).
  { intros t file toks Ht (items & Hwf & Hshape).
    exists ((if decide (t = "<") then IRedirIn file else IRedirOut file) :: items).
    split; [constructor; [by case_decide|done]|].
    assert (Htok : item_tokens (if decide (t = "<") then IRedirIn file else IRedirOut file)
                   = [t; file]).
    { case_decide; [by subst|]. by destruct Ht as [->| ->]. }
    rewrite line_tokens_cons, Htok.
    destruct Hshape as [->|(op & Hop & ->)]; [by left|right; by exists op]. }
  assert (Hdec : ∀ t, is_redirect t ∨ ¬ is_redirect t).
  { intros t. unfold is_redirect.
    destruct (decide (t = "<")), (decide (t = ">")); tauto. }
  induction tokens as [|a tokens [IH1 IH2]].
  - split; [exists []; split; [constructor|by left]|].
    intros t. destruct (Hdec t) as [Ht|Ht].
    + exists []. split; [constructor|]. right. by exists t.
    + apply Hone; [done|]. exists []. split; [constructor|by left].
  - split; [apply IH2|]. intros t. destruct (Hdec t) as [Ht|Ht].
    + by apply Htwo.
    + apply Hone; [done|apply IH2].
Qed.

Lemma tokens_shape tokens :
  ∃ items, Forall well_formed_item items ∧
    (tokens = line_tokens items ∨
     ∃ op, is_redirect op ∧ tokens = line_tokens items ++ [op]).
Proof. apply (tokens_shape_aux tokens). Qed.

(** C10, as stated, fails: the last token of [cat < >] is [>], and the
    parse is defined: [>] is taken as the name of the input file. *)
Lemma final_redirect_token_parses :
  last (strtok_all "cat < >") = Some ">" ∧
  parse_input "cat < >" =
    ([EvStdout ": "],
     Return {| argv := ["cat"]; input_file := Some ">"; output_file := None;
               is_bg := false |}) ∧
  ¬ (∀ input, last (strtok_all input) = Some "<" ∨ last (strtok_all input) = Some ">" →
       result (parse_input input) = Undefined).
Proof.
  split; [reflexivity|]. split; [reflexivity|].
  intros Hclaim. specialize (Hclaim "cat < >" (or_intror eq_refl)). discriminate Hclaim.
Qed.

(** C10, amended: [parse_input] gives a command exactly when the tokens of
    the line split into words, [&] tokens and pairs of a redirection
    operator and the token after it, with no more words than [argv] has
    elements; the command is then the one the items build in order.  When
    such a sequence is followed by one more [<] or [>], that operator has
    no token after it, [strdup] receives NULL and the parse is undefined.
    A [<] or [>] that directly follows a redirection operator is its file
    name, not an operator. *)
Theorem parse_input_defined_iff_redirects_have_files (input : string) :
  (∀ items op, Forall well_formed_item items → is_redirect op →
     strtok_all input = line_tokens items ++ [op] →
     parse_input input = ([EvStdout ": "], Undefined)) ∧
  (∀ cmd, parse_input input = ([EvStdout ": "], Return cmd) ↔
     ∃ items, Forall well_formed_item items ∧ strtok_all input = line_tokens items ∧
       (count_args items ≤ MAX_ARGS + 1)%nat ∧ cmd = foldl apply_item empty_command items) ∧
  (∀ file cmd, parse_tokens ["<"; file] cmd = Some (set_input_file file cmd) ∧
               parse_tokens [">"; file] cmd = Some (set_output_file file cmd)).
Proof.
  assert (Hdangling : ∀ items op, Forall well_formed_item items → is_redirect op →
            parse_tokens (line_tokens items ++ [op]) empty_command = None).
  { intros items op Hwf Hop.
    destruct (decide (count_args items ≤ MAX_ARGS + 1)%nat) as [Hle|Hgt].
    - rewrite parse_tokens_items by (done || (unfold argc; cbn [argv empty_command length]; lia)).
      by apply parse_tokens_dangling.
    - apply parse_tokens_items_overflow; [done|unfold argc; cbn [argv empty_command length]; lia..]. }
  split; [|split].
  - intros items op Hwf Hop Htok. unfold parse_input.
    by rewrite Htok, Hdangling.
  - intros cmd. unfold parse_input. split.
    + destruct (parse_tokens (strtok_all input) empty_command) as [cmd'|] eqn:Hparse;
        [|discriminate].
      intros [= ->].
      destruct (tokens_shape (strtok_all input)) as (items & Hwf & [Htok|(op & Hop & Htok)]).
      * exists items. split; [done|]. split; [done|].
        destruct (decide (count_args items ≤ MAX_ARGS + 1)%nat) as [Hle|Hgt].
        -- split; [done|]. rewrite Htok, <- (app_nil_r (line_tokens items)) in Hparse.
           rewrite parse_tokens_items in Hparse by (done || (unfold argc; cbn [argv empty_command length]; lia)).
           by injection Hparse as <-.
        -- rewrite Htok, <- (app_nil_r (line_tokens items)) in Hparse.
           rewrite parse_tokens_items_overflow in Hparse; [done|done|unfold argc; cbn [argv empty_command length]; lia..].
      * by rewrite Htok, Hdangling in Hparse.
    + intros (items & Hwf & Htok & Hle & ->).
      rewrite Htok, <- (app_nil_r (line_tokens items)).
      by rewrite parse_tokens_items by (done || (unfold argc; cbn [argv empty_command length]; lia)).
  - intros file cmd. split; reflexivity.
Qed.

(** [sort < in.txt > out.txt &] parses to the command with both files and
    the background flag; [cat <] has a redirection operator with nothing
    after it. *)
Lemma parse_input_defined_iff_redirects_have_files_witness :
  parse_input "sort < in.txt > out.txt &" = ([EvStdout ": "], Return sort_files) ∧
  parse_input "cat <" = ([EvStdout ": "], Undefined).
Proof.
  split.
  - apply (proj1 (proj2 (parse_input_defined_iff_redirects_have_files
                            "sort < in.txt > out.txt &"))).
    exists [IArg "sort"; IRedirIn "in.txt"; IRedirOut "out.txt"; IBackground].
    split; [repeat constructor; discriminate|]. split; [reflexivity|].
    split; [cbn [count_args]; lia|reflexivity].
  - apply (proj1 (parse_input_defined_iff_redirects_have_files "cat <") [IArg "cat"] "<").
    + repeat constructor; discriminate.
    + by left.
    + reflexivity.
Defined.


(** * Further properties of the code *)

(** ** The tokens of a line *)

Lemma append_cons c s t : String c s +:+ t = String c (s +:+ t).
Proof. reflexivity. Qed.

Lemma append_nil t : EmptyString +:+ t = t.
Proof. reflexivity. Qed.

Lemma append_assoc s t u : (s +:+ t) +:+ u = s +:+ (t +:+ u).
Proof. induction s as [|c s IH]; [done|]. rewrite !append_cons. by rewrite IH. Qed.

Lemma all_chars_app p s1 s2 :
  all_chars p (s1 +:+ s2) = all_chars p s1 && all_chars p s2.
Proof.
  induction s1 as [|c s1 IH]; [done|].
  rewrite ?append_cons. simpl. rewrite IH. by rewrite andb_assoc.
Qed.

Lemma string_app_snoc s c rest :
  (s +:+ String c EmptyString) +:+ rest = s +:+ String c rest.
Proof. induction s as [|d s IH]; [done|]. rewrite !append_cons. by rewrite IH. Qed.

Lemma delim_not_nul c : is_delim c = true → is_nul c = false.
Proof.
  unfold is_delim, is_nul.
  intros [Hc|Hc]%orb_prop; apply Ascii.eqb_eq in Hc; by subst.
Qed.

Lemma strtok_from_tokens input cur :
  match cur with Some t => is_token t | None => True end →
  Forall is_token (strtok_from input cur).
Proof.
  revert cur. induction input as [|c input IH]; intros cur Hcur; simpl.
  - destruct cur; [by apply Forall_singleton|by apply Forall_nil].
  - destruct (is_nul c) eqn:Hnul.
    { destruct cur; [by apply Forall_singleton|by apply Forall_nil]. }
    destruct (is_delim c) eqn:Hdelim.
    + destruct cur; [apply Forall_cons; split; [done|]|]; by apply IH.
    + apply IH. split.
      * by destruct (default EmptyString cur).
      * rewrite all_chars_app. simpl. unfold is_token_char at 2.
        rewrite Hnul, Hdelim. simpl. rewrite andb_true_r.
        destruct cur as [t|]; [apply Hcur|done].
Qed.

(** A run of token characters extends the token being read. *)
Lemma strtok_from_token_chars w rest cur :
  w ≠ EmptyString → all_chars is_token_char w = true →
  strtok_from (w +:+ rest) cur = strtok_from rest (Some (default EmptyString cur +:+ w)).
Proof.
  revert cur. induction w as [|c w IH]; intros cur Hne Hall; [done|].
  simpl in Hall. apply andb_prop in Hall as [Hc Hw].
  unfold is_token_char in Hc. apply andb_prop in Hc as [Hnul Hdelim].
  apply negb_true_iff in Hnul, Hdelim.
  rewrite ?append_cons. cbn [strtok_from]. rewrite Hnul, Hdelim.
  destruct w as [|d w].
  - reflexivity.
  - rewrite IH by done. do 2 f_equal. apply string_app_snoc.
Qed.

(** Delimiters before a token are skipped. *)
Lemma strtok_from_delims pad rest :
  all_chars is_delim pad = true →
  strtok_from (pad +:+ rest) None = strtok_from rest None.
Proof.
  induction pad as [|c pad IH]; [done|]. simpl. intros [Hc Hpad]%andb_prop.
  rewrite ?append_cons. cbn [strtok_from].
  rewrite (delim_not_nul c Hc), Hc. by apply IH.
Qed.

Lemma strtok_from_delims_end pad :
  all_chars is_delim pad = true → strtok_from pad None = [].
Proof.
  induction pad as [|c pad IH]; [done|]. simpl. intros [Hc Hpad]%andb_prop.
  rewrite (delim_not_nul c Hc), Hc. by apply IH.
Qed.

Lemma strtok_from_close t pad rest :
  pad ≠ EmptyString → all_chars is_delim pad = true →
  strtok_from (pad +:+ rest) (Some t) = t :: strtok_from rest None.
Proof.
  destruct pad as [|c pad]; [done|]. intros _. simpl. intros [Hc Hpad]%andb_prop.
  rewrite ?append_cons. cbn [strtok_from].
  rewrite (delim_not_nul c Hc), Hc. f_equal. by apply strtok_from_delims.
Qed.

Lemma strtok_from_close_end t pad :
  all_chars is_delim pad = true → strtok_from pad (Some t) = [t].
Proof.
  destruct pad as [|c pad]; [done|]. simpl. intros [Hc Hpad]%andb_prop.
  rewrite (delim_not_nul c Hc), Hc. f_equal. by apply strtok_from_delims_end.
Qed.

(** The loop stores nothing but tokens it was handed. *)
Lemma parse_tokens_tokens_only n tokens cmd cmd' :
  (length tokens ≤ n)%nat →
  Forall is_token tokens →
  tokens_only cmd →
  parse_tokens tokens cmd = Some cmd' →
  tokens_only cmd'.
Proof.
  revert tokens cmd. induction n as [|n IH]; intros tokens cmd Hlen Htok Hcmd.
  { destruct tokens; [|simpl in Hlen; lia]. by intros [= <-]. }
  destruct tokens as [|token rest]; [by intros [= <-]|].
  apply Forall_cons in Htok as [Htoken Hrest]. simpl in Hlen.
  destruct Hcmd as (Hargv & Hin & Hout).
  cbn [parse_tokens].
  destruct (String.eqb token "<").
  { destruct rest as [|file rest']; [discriminate|].
    apply Forall_cons in Hrest as [Hfile Hrest']. simpl in Hlen.
    apply IH; [lia|done|]. split; [done|]. split; [|done].
    by intros f [= <-]. }
  destruct (String.eqb token ">").
  { destruct rest as [|file rest']; [discriminate|].
    apply Forall_cons in Hrest as [Hfile Hrest']. simpl in Hlen.
    apply IH; [lia|done|]. split; [done|]. split; [done|].
    by intros f [= <-]. }
  destruct (String.eqb token "&").
  { apply IH; [lia|done|]. done. }
  destruct (MAX_ARGS + 1 <=? argc cmd)%nat; [discriminate|].
  apply IH; [lia|done|]. split; [|done].
  cbn [argv push_arg]. apply Forall_app. split; [done|]. by apply Forall_singleton.
Qed.

(** X1: every token that [strtok] hands to the loop of [parse_input] has at
    least one character and contains neither a space, nor a newline, nor a
    NUL; and every argument and every file name of the command that
    [parse_input] returns is such a token: in particular none of them is
    the empty string. *)
Theorem strtok_tokens_are_clean (input : string) :
  Forall is_token (strtok_all input) ∧
  ∀ cmd, result (parse_input input) = Return cmd →
    Forall (λ arg, arg ≠ EmptyString ∧ all_chars is_token_char arg = true) (argv cmd) ∧
    (∀ file, input_file cmd = Some file →
       file ≠ EmptyString ∧ all_chars is_token_char file = true) ∧
    (∀ file, output_file cmd = Some file →
       file ≠ EmptyString ∧ all_chars is_token_char file = true).
Proof.
  assert (Htok : Forall is_token (strtok_all input)) by by apply strtok_from_tokens.
  split; [exact Htok|]. intros cmd. unfold parse_input.
  destruct (parse_tokens (strtok_all input) empty_command) as [cmd'|] eqn:Hparse;
    [|discriminate].
  intros [= ->].
  apply (parse_tokens_tokens_only (length (strtok_all input)) (strtok_all input)
           empty_command cmd); [done|done| |done].
  split; [by apply Forall_nil|]. split; intros file; discriminate.
Qed.

(** The line [cat < in.txt]: the argument and the file name it is parsed to
    are tokens. *)
Lemma strtok_tokens_are_clean_witness :
  result (parse_input ("cat  < in.txt" +:+ nl)) =
    Return {| argv := ["cat"]; input_file := Some "in.txt"; output_file := None;
              is_bg := false |} ∧
  is_token "cat" ∧ is_token "in.txt".
Proof.
  split; [reflexivity|].
  destruct (proj2 (strtok_tokens_are_clean ("cat  < in.txt" +:+ nl))
              {| argv := ["cat"]; input_file := Some "in.txt"; output_file := None;
                 is_bg := false |} eq_refl) as (Hargv & Hin & _).
  split.
  - apply (Forall_inv Hargv).
  - apply (Hin "in.txt" eq_refl).
Defined.

(** X2: tokenising is the inverse of joining words with single spaces:
    the tokens of the words of a line, written one space apart, with any
    run of spaces and newlines before the first and after the last, are
    these words. *)
Theorem strtok_all_join (words : list string) (before after : string) :
  Forall is_token words →
  all_chars is_delim before = true →
  all_chars is_delim after = true →
  strtok_all (before +:+ (String.concat " " words +:+ after)) = words.
Proof.
  intros Hwords Hbefore Hafter. unfold strtok_all.
  rewrite strtok_from_delims by done. clear before Hbefore.
  induction Hwords as [|w words [Hne Hw] Hwords IH].
  { simpl. rewrite ?append_nil. by apply strtok_from_delims_end. }
  destruct words as [|w' words].
  - cbn [String.concat]. rewrite strtok_from_token_chars by done.
    cbn [default]. rewrite ?append_nil. by apply strtok_from_close_end.
  - change (String.concat " " (w :: w' :: words))
      with (w +:+ " " +:+ String.concat " " (w' :: words)).
    rewrite !append_assoc.
    rewrite strtok_from_token_chars by done. cbn [default]. rewrite ?append_nil.
    rewrite strtok_from_close by done. f_equal. apply IH.
Qed.

(** The line [  ls   -l ] and its tokens. *)
Lemma strtok_all_join_witness :
  strtok_all ("  " +:+ (String.concat " " ["ls"; "-la"; "/tmp"] +:+ (" " +:+ nl))) =
    ["ls"; "-la"; "/tmp"].
Proof.
  apply (strtok_all_join ["ls"; "-la"; "/tmp"] "  " (" " +:+ nl)).
  - repeat constructor; discriminate.
  - reflexivity.
  - reflexivity.
Defined.

(** ** The command a line is parsed to *)

Lemma foldl_apply_item_fields items cmd :
  argv (foldl apply_item cmd items) = argv cmd ++ words_of items ∧
  is_bg (foldl apply_item cmd items) = is_bg cmd || bool_decide (IBackground ∈ items) ∧
  input_file (foldl apply_item cmd items) =
    match last (in_files_of items) with Some file => Some file | None => input_file cmd end ∧
  output_file (foldl apply_item cmd items) =
    match last (out_files_of items) with Some file => Some file | None => output_file cmd end.
Proof.
  induction items as [|it items (IHargv & IHbg & IHin & IHout)] using rev_ind.
  - simpl. rewrite app_nil_r, orb_false_r. done.
  - rewrite foldl_snoc. unfold words_of, in_files_of, out_files_of in *.
    rewrite !omap_app.
    assert (Hbg : bool_decide (IBackground ∈ items ++ [it]) =
                  bool_decide (IBackground ∈ items) ||
                  match it with IBackground => true | _ => false end).
    { destruct it; rewrite ?orb_true_r, ?orb_false_r;
        try (apply bool_decide_ext; rewrite elem_of_app, list_elem_of_singleton;
             split; [intros [?|?]; [done|discriminate]|by left]).
      apply bool_decide_eq_true, elem_of_app. right. by apply list_elem_of_singleton. }
    rewrite Hbg. clear Hbg.
    destruct it as [word| |file|file]; simpl;
      rewrite ?app_nil_r, ?last_snoc, ?IHargv, ?IHbg, ?IHin, ?IHout, ?orb_false_r,
        ?orb_true_r, ?app_assoc; done.
Qed.

(** X3: the command that a well-formed line with at most [MAX_ARGS + 1]
    words is parsed to.  Its arguments are the words of the line in their
    order, without the redirection operators, the file names and the [&]
    items; it is a background command exactly when one of the items of the
    line is [&], wherever that item stands (a [&] token that directly
    follows a redirection operator is the file name of that operator, not
    such an item); and when [<] (or [>]) occurs several times the file of
    the last occurrence is kept. *)
Theorem parse_tokens_fields (items : list item) :
  Forall well_formed_item items →
  (count_args items ≤ MAX_ARGS + 1)%nat →
  ∃ cmd,
    parse_tokens (line_tokens items) empty_command = Some cmd ∧
    argv cmd = words_of items ∧
    is_bg cmd = bool_decide (IBackground ∈ items) ∧
    input_file cmd = last (in_files_of items) ∧
    output_file cmd = last (out_files_of items).
Proof.
  intros Hwf Hle. exists (foldl apply_item empty_command items).
  split.
  - rewrite <- (app_nil_r (line_tokens items)).
    by rewrite parse_tokens_items
      by (done || (unfold argc; cbn [argv empty_command length]; lia)).
  - destruct (foldl_apply_item_fields items empty_command) as (-> & -> & -> & ->).
    simpl. repeat split; by destruct (last _).
Qed.

(** [& wc < a.txt -l > b.txt < c.txt]: the [&] in front counts, and the
    input file is the last one named.  In [cat < &] the [&] is the name of
    the input file, and the command is not a background command. *)
Lemma parse_tokens_fields_witness :
  parse_tokens ["&"; "wc"; "<"; "a.txt"; "-l"; ">"; "b.txt"; "<"; "c.txt"] empty_command =
    Some {| argv := ["wc"; "-l"]; input_file := Some "c.txt";
            output_file := Some "b.txt"; is_bg := true |} ∧
  parse_tokens ["cat"; "<"; "&"] empty_command =
    Some {| argv := ["cat"]; input_file := Some "&"; output_file := None;
            is_bg := false |}.
Proof.
  split.
  - destruct (parse_tokens_fields
                [IBackground; IArg "wc"; IRedirIn "a.txt"; IArg "-l";
                 IRedirOut "b.txt"; IRedirIn "c.txt"])
      as ([args inp out bg] & Hparse & Hargv & Hbg & Hin & Hout).
    + repeat constructor; discriminate.
    + cbn [count_args]. unfold MAX_ARGS. lia.
    + simpl in Hargv, Hbg, Hin, Hout. subst. exact Hparse.
  - destruct (parse_tokens_fields [IArg "cat"; IRedirIn "&"])
      as ([args inp out bg] & Hparse & Hargv & Hbg & Hin & Hout).
    + repeat constructor; discriminate.
    + cbn [count_args]. unfold MAX_ARGS. lia.
    + simpl in Hargv, Hbg, Hin, Hout. subst. exact Hparse.
Defined.

(** ** Lines too short to overflow [argv] *)

Lemma strtok_from_count input cur :
  (2 * length (strtok_from input cur) ≤
   String.length input + match cur with Some _ => 2 | None => 1 end)%nat.
Proof.
  revert cur. induction input as [|c input IH]; intros cur.
  - destruct cur; simpl; lia.
  - cbn [strtok_from String.length]. destruct (is_nul c).
    { destruct cur; simpl; lia. }
    destruct (is_delim c).
    + destruct cur; [cbn [length]|]; specialize (IH None); simpl in IH; lia.
    + specialize (IH (Some (default EmptyString cur +:+ String c EmptyString))).
      simpl in IH. destruct cur; lia.
Qed.

Lemma count_args_le_tokens items :
  (count_args items ≤ length (line_tokens items))%nat.
Proof.
  induction items as [|it items IH]; [done|].
  rewrite line_tokens_cons, length_app. destruct it; cbn [count_args item_tokens length]; lia.
Qed.

(** X4: a line has at most half as many tokens as it has characters
    (rounded up), so a buffer of at most [2 * (MAX_ARGS + 1)] characters
    never makes [parse_input] store beyond the end of [argv]: for such a
    buffer the parse is undefined exactly when the line ends with a
    redirection operator that has no file name after it. *)
Theorem short_line_never_overflows (input : string) :
  (String.length input ≤ 2 * (MAX_ARGS + 1))%nat →
  (2 * length (strtok_all input) ≤ String.length input + 1)%nat ∧
  (parse_input input = ([EvStdout ": "], Undefined) ↔
   ∃ items op, Forall well_formed_item items ∧ is_redirect op ∧
     strtok_all input = line_tokens items ++ [op]).
Proof.
  intros Hlen. pose proof (strtok_from_count input None) as Hcount.
  fold (strtok_all input) in Hcount. split; [exact Hcount|].
  unfold parse_input. split.
  - intros Hundef.
    destruct (tokens_shape (strtok_all input)) as (items & Hwf & [Htok|(op & Hop & Htok)]).
    + exfalso. rewrite Htok in Hundef, Hcount.
      pose proof (count_args_le_tokens items).
      rewrite <- (app_nil_r (line_tokens items)) in Hundef.
      rewrite parse_tokens_items in Hundef
        by (done || (unfold argc; cbn [argv empty_command length]; lia)).
      discriminate Hundef.
    + by exists items, op.
  - intros (items & op & Hwf & Hop & Htok). rewrite Htok.
    rewrite Htok, length_app in Hcount. cbn [length] in Hcount.
    pose proof (count_args_le_tokens items).
    rewrite parse_tokens_items
      by (done || (unfold argc; cbn [argv empty_command length]; lia)).
    by rewrite parse_tokens_dangling.
Qed.

(** [cat <] is short and ends with an operator: the parse is undefined. *)
Lemma short_line_never_overflows_witness :
  parse_input "cat <" = ([EvStdout ": "], Undefined).
Proof.
  apply (proj2 (short_line_never_overflows "cat <" ltac:(cbn [String.length]; unfold MAX_ARGS; lia))).
  exists [IArg "cat"], "<". split; [repeat constructor; discriminate|].
  split; [by left|reflexivity].
Defined.

(** ** Reading the line *)

Lemma fgets_from_line room line rest :
  all_chars not_newline line = true →
  (String.length line < room)%nat →
  fgets_from room (line +:+ (nl +:+ rest)) = (line +:+ nl, rest).
Proof.
  revert room. induction line as [|c line IH]; intros room Hline Hlen.
  - destruct room; [simpl in Hlen; lia|]. reflexivity.
  - destruct room as [|room]; [simpl in Hlen; lia|].
    simpl in Hline. apply andb_prop in Hline as [Hc Hline].
    unfold not_newline in Hc. apply negb_true_iff in Hc.
    rewrite !append_cons. cbn [fgets_from]. rewrite Hc.
    rewrite IH by (done || (simpl in Hlen; lia)). reflexivity.
Qed.

Lemma fgets_from_full room line rest :
  all_chars not_newline line = true →
  String.length line = room →
  fgets_from room (line +:+ rest) = (line, rest).
Proof.
  revert room. induction line as [|c line IH]; intros room Hline Hlen.
  - simpl in Hlen. subst room. reflexivity.
  - destruct room as [|room]; [simpl in Hlen; lia|].
    simpl in Hline. apply andb_prop in Hline as [Hc Hline].
    unfold not_newline in Hc. apply negb_true_iff in Hc.
    rewrite !append_cons. cbn [fgets_from]. rewrite Hc.
    rewrite IH by (done || (simpl in Hlen; lia)). reflexivity.
Qed.

(** X5: what [parse_input] parses.  When the read is not interrupted, a
    line of fewer than [INPUT_LENGTH - 1] characters is read whole, with its
    newline, and the rest of the input is left for the next turn; of a
    longer line only the first [INPUT_LENGTH - 1] characters are read: they
    are parsed as a command of their own, and the remainder of the line is
    what the next turn reads.  When [fgets] returns NULL (at end of file, or
    because SIGTSTP, whose handler [main] installs without [SA_RESTART],
    interrupted the read) its value is not tested: what is parsed is the
    content of the array [input], whatever it is, not the input; a line
    that is still to come stays on the input; and when the array holds no
    NUL the parse is undefined. *)
Theorem parse_input_reads_one_buffer (array : option string) (line rest : string) :
  all_chars not_newline line = true →
  (String.length line < INPUT_LENGTH - 1 →
     parse_input_stdin array ReadChars (line +:+ (nl +:+ rest)) =
       (cmd ← parse_input (line +:+ nl); mret (cmd, rest)))%nat ∧
  (String.length line = INPUT_LENGTH - 1 →
     parse_input_stdin array ReadChars (line +:+ rest) =
       (cmd ← parse_input line; mret (cmd, rest)))%nat ∧
  (∀ stale taken stream,
     array = Some stale →
     parse_input_stdin array ReadChars EmptyString =
       (cmd ← parse_input stale; mret (cmd, EmptyString)) ∧
     parse_input_stdin array (ReadInterrupted taken) stream =
       (cmd ← parse_input stale; mret (cmd, string_skip taken stream)) ∧
     parse_input_stdin array (ReadInterrupted 0) stream =
       (cmd ← parse_input stale; mret (cmd, stream))) ∧
  (∀ taken stream,
     array = None →
     parse_input_stdin array ReadChars EmptyString = ([EvStdout ": "], Undefined) ∧
     parse_input_stdin array (ReadInterrupted taken) stream =
       ([EvStdout ": "], Undefined)) ∧
  Kern.disposition_of shell_signals Sys.SIGTSTP = SigCatch Fn_handle_SIGTSTP 0 ∧
  Z.land 0 Sys.SA_RESTART = 0.
Proof.
  intros Hline. split; [|split; [|split; [|split; [|split]]]].
  - intros Hlen. unfold parse_input_stdin, fgets.
    destruct (line +:+ (nl +:+ rest)) as [|c s] eqn:Hs.
    { destruct line; discriminate Hs. }
    rewrite <- Hs. by rewrite (fgets_from_line _ _ _ Hline Hlen).
  - intros Hlen. unfold parse_input_stdin, fgets.
    destruct (line +:+ rest) as [|c s] eqn:Hs.
    { destruct line as [|c line]; [|discriminate Hs].
      exfalso. revert Hlen. unfold INPUT_LENGTH. simpl. lia. }
    rewrite <- Hs. by rewrite (fgets_from_full _ _ _ Hline Hlen).
  - intros stale taken stream ->. repeat split; reflexivity.
  - intros taken stream ->. split; reflexivity.
  - reflexivity.
  - reflexivity.
Qed.

(** The input [ls -la] followed by the line [status], read without
    interruption; and the same input when SIGTSTP interrupts the read while
    the array holds [status]: the command is [status] and both lines are
    still to be read. *)
Lemma parse_input_reads_one_buffer_witness :
  parse_input_stdin (Some "status") ReadChars ("ls -la" +:+ (nl +:+ ("status" +:+ nl))) =
    ([EvStdout ": "],
     Return ({| argv := ["ls"; "-la"]; input_file := None; output_file := None;
                is_bg := false |}, "status" +:+ nl)) ∧
  parse_input_stdin (Some "status") (ReadInterrupted 0)
      ("ls -la" +:+ (nl +:+ ("status" +:+ nl))) =
    ([EvStdout ": "],
     Return ({| argv := ["status"]; input_file := None; output_file := None;
                is_bg := false |}, "ls -la" +:+ (nl +:+ ("status" +:+ nl)))).
Proof.
  destruct (parse_input_reads_one_buffer (Some "status") "ls -la" ("status" +:+ nl) eq_refl)
    as (Hshort & _ & Hnull & _).
  split.
  - rewrite Hshort; [reflexivity|]. unfold INPUT_LENGTH. cbn [String.length]. lia.
  - destruct (Hnull "status" 0%nat ("ls -la" +:+ (nl +:+ ("status" +:+ nl))) eq_refl)
      as (_ & _ & ->).
    reflexivity.
Defined.

(** ** The job table: adding and reaping *)

Lemma set_background_processes_same sh :
  set_background_processes (background_processes sh) sh = sh.
Proof. by destruct sh. Qed.

(** X6: registering a process and reaping it gives the table back.  When
    the table has a free slot and does not hold [pid], a sweep of the
    reaper in which [pid] is reported terminated and no other process is
    leaves exactly the state there was before [pid] was added. *)
Theorem add_then_reap_restores_table (k : kernel) (pid : Z) (sh : shell) :
  length (background_processes sh) = MAX_BG_PC →
  pid ≠ 0 →
  pid ∉ background_processes sh →
  0 ∈ background_processes sh →
  (∀ i, 0 < (k_poll k i pid).1) →
  (∀ i p, p ≠ pid → (k_poll k i p).1 ≤ 0) →
  ∃ tr i,
    check_background_processes k (add_bg_process pid sh) = (tr, Return sh) ∧
    EvWaitpid pid Sys.WNOHANG (k_poll k i pid).1 ∈ tr.
Proof.
  intros Hlen Hpid Hfresh Hfree Hdone Hrunning.
  destruct (add_bg_from_spec MAX_BG_PC 0 pid (background_processes sh))
    as [(j & Hj & Hj0 & _ & Hadd)|[Hnone _]].
  2:{ exfalso. apply list_elem_of_lookup in Hfree as [i Hi].
      apply (Hnone i); [|done]. apply lookup_lt_Some in Hi. lia. }
  assert (Hjlt : (j < length (background_processes sh))%nat) by by eapply lookup_lt_Some.
  destruct (check_slots_spec k MAX_BG_PC 0 (<[j := pid]> (background_processes sh)))
    as (tr & bg' & Heq & Hlen' & Hlook & Hev).
  rewrite length_insert in Hlen'.
  assert (Hback : bg' = background_processes sh).
  { apply list_eq. intros i.
    destruct (background_processes sh !! i) as [p|] eqn:Hi.
    - pose proof (lookup_lt_Some _ _ _ Hi) as Hilt.
      destruct (decide (i = j)) as [->|Hij].
      + rewrite (Hlook j pid) by (by apply list_lookup_insert_eq).
        rewrite decide_True by lia. unfold slot_after.
        rewrite (proj2 (Z.eqb_neq _ _) Hpid), (proj2 (Z.ltb_lt _ _) (Hdone j)).
        congruence.
      + rewrite (Hlook i p) by (by rewrite list_lookup_insert_ne).
        rewrite decide_True by lia. unfold slot_after.
        destruct (p =? 0) eqn:Hp0; [apply Z.eqb_eq in Hp0; by subst|].
        assert (p ≠ pid) as Hne.
        { intros ->. apply Hfresh. apply list_elem_of_lookup. eauto. }
        by rewrite (proj2 (Z.ltb_ge _ _) (Hrunning i p Hne)).
    - apply lookup_ge_None in Hi. apply lookup_ge_None. lia. }
  exists tr, j. split.
  - unfold check_background_processes, add_bg_process.
    cbn [background_processes set_background_processes]. rewrite Hadd, Heq, Hback.
    simpl. rewrite app_nil_r. by destruct sh.
  - apply Hev. exists j, pid. split; [lia|]. split; [by apply list_lookup_insert_eq|].
    unfold slot_events. rewrite (proj2 (Z.eqb_neq _ _) Hpid). apply elem_of_cons. by left.
Qed.

(** The process 77 is added to the empty table and found exited. *)
Lemma add_then_reap_restores_table_witness :
  ∃ tr i,
    check_background_processes (shell_kernel 78 0 (only_exited 77 0))
      (add_bg_process 77 initial_shell) = (tr, Return initial_shell) ∧
    EvWaitpid 77 Sys.WNOHANG ((only_exited 77 0) i 77).1 ∈ tr.
Proof.
  apply (add_then_reap_restores_table (shell_kernel 78 0 (only_exited 77 0)) 77
           initial_shell).
  - reflexivity.
  - lia.
  - intros Hin. apply elem_of_replicate in Hin as [? _]. lia.
  - apply elem_of_replicate. split; [done|]. unfold MAX_BG_PC. lia.
  - intros i. simpl. lia.
  - intros i p Hp. simpl. unfold only_exited.
    rewrite (proj2 (Z.eqb_neq _ _) Hp). simpl. lia.
Defined.

Lemma add_bg_process_cases pid sh (i : nat) p :
  background_processes (add_bg_process pid sh) !! i = Some p →
  background_processes sh !! i = Some p ∨
  (p = pid ∧ background_processes sh !! i = Some 0).
Proof.
  unfold add_bg_process. cbn [background_processes set_background_processes].
  destruct (add_bg_from_spec MAX_BG_PC 0 pid (background_processes sh))
    as [(j & Hj & Hj0 & _ & ->)|[Hnone ->]]; [|by left].
  assert (Hjlt : (j < length (background_processes sh))%nat) by by eapply lookup_lt_Some.
  intros Hi. destruct (decide (i = j)) as [->|Hij].
  - rewrite list_lookup_insert_eq in Hi by done. injection Hi as <-. by right.
  - rewrite list_lookup_insert_ne in Hi by done. by left.
Qed.

(** X7: [add_bg_process] never evicts a job.  The call either leaves the
    table as it is or writes the process id into one slot, which held 0 and
    is the first that did; every occupied slot keeps its process id and the
    table keeps its length; with its 20 slots, the new process id is in the
    table afterwards when there was a free slot, and when there was none it
    is not (unless it was there already). *)
Theorem add_bg_process_keeps_jobs (pid : Z) (sh : shell) :
  (background_processes (add_bg_process pid sh) = background_processes sh ∨
   ∃ i : nat,
     background_processes sh !! i = Some 0 ∧
     (∀ j : nat, (j < i)%nat → background_processes sh !! j ≠ Some 0) ∧
     background_processes (add_bg_process pid sh) = <[i := pid]> (background_processes sh)) ∧
  fg_only (add_bg_process pid sh) = fg_only sh ∧
  prev_fg_status (add_bg_process pid sh) = prev_fg_status sh ∧
  length (background_processes (add_bg_process pid sh)) = length (background_processes sh) ∧
  (∀ (i : nat) p, background_processes sh !! i = Some p → p ≠ 0 →
     background_processes (add_bg_process pid sh) !! i = Some p) ∧
  (∀ (i : nat) p, background_processes (add_bg_process pid sh) !! i = Some p →
     background_processes sh !! i = Some p ∨
     (p = pid ∧ background_processes sh !! i = Some 0)) ∧
  (length (background_processes sh) = MAX_BG_PC →
     (pid ∈ background_processes (add_bg_process pid sh) ↔
      pid ∈ background_processes sh ∨ 0 ∈ background_processes sh)).
Proof.
  unfold add_bg_process.
  cbn [background_processes set_background_processes fg_only prev_fg_status].
  split.
  { destruct (add_bg_from_spec MAX_BG_PC 0 pid (background_processes sh))
      as [(j & Hj & Hj0 & Hfirst & ->)|[Hnone ->]]; [right|by left].
    exists j. split; [done|]. split; [|done]. intros j' Hj'. apply Hfirst. lia. }
  split; [reflexivity|]. split; [reflexivity|].
  split; [apply add_bg_from_length|].
  destruct (add_bg_from_spec MAX_BG_PC 0 pid (background_processes sh))
    as [(j & Hj & Hj0 & _ & ->)|[Hnone ->]].
  - assert (Hjlt : (j < length (background_processes sh))%nat) by by eapply lookup_lt_Some.
    split; [|split].
    + intros i p Hi Hp. rewrite list_lookup_insert_ne; [done|]. intros ->. congruence.
    + intros i p Hi. destruct (decide (i = j)) as [->|Hij].
      * rewrite list_lookup_insert_eq in Hi by done. injection Hi as <-. by right.
      * rewrite list_lookup_insert_ne in Hi by done. by left.
    + intros _. split; [intros _; right; apply list_elem_of_lookup; eauto|].
      intros _. apply list_elem_of_lookup. exists j. by apply list_lookup_insert_eq.
  - split; [done|]. split; [by left|].
    intros Hlen. split; [by left|]. intros [Hin|Hfree]; [done|].
    exfalso. apply list_elem_of_lookup in Hfree as [i Hi].
    apply (Hnone i); [|done]. apply lookup_lt_Some in Hi. lia.
Qed.

(** With the table full, the process id 99 is not recorded; after
    [sleep 5 &] the process id 99 goes to slot 1 and the process 77 keeps
    slot 0. *)
Lemma add_bg_process_keeps_jobs_witness :
  ¬ 99 ∈ background_processes (add_bg_process 99 full_table_shell) ∧
  background_processes (add_bg_process 99 bg_started_shell) !! 0%nat = Some 77 ∧
  99 ∈ background_processes (add_bg_process 99 bg_started_shell).
Proof.
  split; [|split].
  - destruct (add_bg_process_keeps_jobs 99 full_table_shell) as (_ & _ & _ & _ & _ & _ & Hin).
    rewrite (Hin eq_refl). unfold full_table_shell.
    cbn [background_processes set_background_processes].
    rewrite !elem_of_seqZ. unfold MAX_BG_PC. lia.
  - destruct (add_bg_process_keeps_jobs 99 bg_started_shell) as (_ & _ & _ & _ & Hkeep & _).
    apply Hkeep; [reflexivity|lia].
  - destruct (add_bg_process_keeps_jobs 99 bg_started_shell) as (_ & _ & _ & _ & _ & _ & Hin).
    apply (Hin eq_refl). right. apply list_elem_of_lookup. by exists 1%nat.
Defined.

(** X8: a sweep in which nothing has terminated changes nothing and prints
    nothing: it consists of the polls alone.  With an empty table the sweep
    makes no system call at all, whatever the kernel would answer. *)
Theorem quiet_sweep_changes_nothing (k : kernel) (sh : shell) :
  ((∀ i p, (k_poll k i p).1 ≤ 0) →
     ∃ tr, check_background_processes k sh = (tr, Return sh) ∧
           Forall (λ e, is_wait e = true) tr) ∧
  (Forall (λ p, p = 0) (background_processes sh) →
     check_background_processes k sh = ([], Return sh)).
Proof.
  destruct (check_background_processes_returns k sh) as (tr & bg' & Heq & Hslots).
  destruct (check_slots_spec k MAX_BG_PC 0 (background_processes sh))
    as (tr' & bg'' & Heq' & Hlen' & Hlook & Hev).
  rewrite Hslots in Heq'. injection Heq' as <- <-.
  split.
  - intros Hquiet. exists tr.
    assert (Hsame : bg' = background_processes sh).
    { apply list_eq. intros i.
      destruct (background_processes sh !! i) as [p|] eqn:Hi.
      - rewrite (Hlook i p Hi). f_equal. case_decide; [|done].
        unfold slot_after. destruct (p =? 0) eqn:Hp0; [apply Z.eqb_eq in Hp0; by subst|].
        by rewrite (proj2 (Z.ltb_ge _ _) (Hquiet i p)).
      - apply lookup_ge_None in Hi. apply lookup_ge_None. lia. }
    rewrite Heq, Hsame, set_background_processes_same. split; [done|].
    apply Forall_forall. intros e (j & p & _ & _ & Hin)%Hev.
    unfold slot_events in Hin. destruct (p =? 0); [by apply elem_of_nil in Hin|].
    rewrite (proj2 (Z.ltb_ge _ _) (Hquiet j p)) in Hin.
    apply elem_of_cons in Hin as [->|Hin]; [done|by apply elem_of_nil in Hin].
  - intros Hempty. rewrite Forall_lookup in Hempty.
    assert (Hnil : tr = []).
    { destruct tr as [|e tr]; [done|]. exfalso.
      destruct (proj1 (Hev e)) as (j & p & _ & Hj & Hin); [apply elem_of_cons; by left|].
      rewrite (Hempty j p Hj) in Hin. by apply elem_of_nil in Hin. }
    assert (Hsame : bg' = background_processes sh).
    { apply list_eq. intros i.
      destruct (background_processes sh !! i) as [p|] eqn:Hi.
      - rewrite (Hlook i p Hi). rewrite (Hempty i p Hi). by case_decide.
      - apply lookup_ge_None in Hi. apply lookup_ge_None. lia. }
    by rewrite Heq, Hnil, Hsame, set_background_processes_same.
Qed.

(** After [sleep 5 &], a sweep that finds the child still running. *)
Lemma quiet_sweep_changes_nothing_witness :
  ∃ tr, check_background_processes (shell_kernel 78 0 still_running) bg_started_shell =
          (tr, Return bg_started_shell) ∧
        Forall (λ e, is_wait e = true) tr.
Proof.
  apply (proj1 (quiet_sweep_changes_nothing (shell_kernel 78 0 still_running)
                  bg_started_shell)).
  intros i p. simpl. lia.
Defined.

(** ** Children that the table does not hold *)

Lemma children_after_keeps tr ch pid :
  Kern.child_answers_ok tr ch →
  pid ∈ ch →
  (∀ p options ret, EvWaitpid p options ret ∈ tr → p ≠ pid) →
  pid ∈ Kern.children_after tr ch.
Proof.
  revert ch. induction tr as [|e tr IH]; intros ch Hok Hin Hwaits; [done|].
  destruct Hok as [He Hok]. unfold Kern.children_after. cbn [foldl].
  apply IH; [exact Hok| |].
  - destruct e; simpl; try done.
    + destruct (0 <? ret); [by apply elem_of_union_r|done].
    + destruct (0 <? ret) eqn:Hret; [|done]. apply Z.ltb_lt in Hret.
      destruct (He Hret) as [-> _]. apply elem_of_difference. split; [done|].
      intros Heq%elem_of_singleton. eapply Hwaits; [apply elem_of_cons; by left|done].
  - intros p options ret Hp. eapply Hwaits. apply elem_of_cons. by right.
Qed.

Lemma silent_no_wait tr p options ret :
  forallb (λ e, negb (is_fork e) && negb (is_wait e)) tr = true →
  EvWaitpid p options ret ∉ tr.
Proof.
  induction tr as [|e tr IH]; [intros _; by apply not_elem_of_nil|].
  simpl. intros [He Htr]%andb_prop [Heq|Hin]%elem_of_cons.
  - subst e. discriminate He.
  - by apply IH.
Qed.

Lemma main_loop_body_untracked k input sh tr sh' ch pid :
  main_loop_body k input sh = (tr, Return sh') →
  Kern.child_answers_ok tr ch →
  pid ≠ 0 → pid ∈ ch → (pid ∉ background_processes sh) →
  (∀ p options ret, EvWaitpid p options ret ∈ tr → p ≠ pid) ∧
  (pid ∉ background_processes sh') ∧
  pid ∈ Kern.children_after tr ch.
Proof.
  unfold main_loop_body.
  intros (trA & sh1 & tr2 & Hreap & Hrest & ->)%bind_return_inv.
  apply bind_return_inv in Hrest as (tr3 & cmd & tr4 & Hparse & Hdisp & ->).
  apply parse_input_trace in Hparse as ->.
  destruct (check_background_processes_returns k sh) as (tr1 & bg1 & Heq & Hslots).
  rewrite Heq in Hreap. injection Hreap as <- <-.
  destruct (check_slots_spec k MAX_BG_PC 0 (background_processes sh))
    as (tr1'' & bg1' & Heq' & Hlen1 & Hlook & Hev).
  rewrite Hslots in Heq'. injection Heq' as <- <-.
  intros Hok Hpid Hin Hnot.
  assert (Hw1 : ∀ p options ret, EvWaitpid p options ret ∈ tr1 → p ≠ pid).
  { intros p options ret (j & q & _ & Hj & Hev1)%Hev.
    apply slot_events_wait in Hev1 as (-> & _). intros ->.
    apply Hnot. apply list_elem_of_lookup. eauto. }
  assert (Hbg1 : pid ∉ bg1).
  { intros [j Hj]%list_elem_of_lookup.
    destruct (background_processes sh !! j) as [q|] eqn:Hq.
    - rewrite (Hlook j q Hq) in Hj. injection Hj as Hj.
      case_decide; [|subst; apply Hnot, list_elem_of_lookup; eauto].
      unfold slot_after in Hj. destruct (q =? 0); [congruence|].
      destruct (0 <? _); [congruence|]. subst. apply Hnot, list_elem_of_lookup; eauto.
    - apply lookup_ge_None in Hq. apply lookup_lt_Some in Hj. lia. }
  apply child_answers_ok_app in Hok as [Hok1 Hok2].
  apply child_answers_ok_app in Hok2 as [_ Hok4].
  rewrite <- children_after_app in Hok4.
  set (ch1 := Kern.children_after (tr1 ++ [EvStdout ": "]) ch) in *.
  assert (Hin1 : pid ∈ ch1).
  { unfold ch1. rewrite children_after_app. simpl.
    apply children_after_keeps; done. }
  assert (Hfinal : (∀ p options ret, EvWaitpid p options ret ∈ tr4 → p ≠ pid) ∧
                   (pid ∉ background_processes sh')).
  { destruct (dispatch_return_cases _ _ _ _ _ Hdisp)
      as [[-> Hsilent]|(H1 & H0 & [(_ & _ & Hbg)|Hfg])].
    - split; [|done]. intros p options ret Hp. by destruct (silent_no_wait _ _ _ _ Hsilent Hp).
    - rewrite background_process_parent in Hbg by done. injection Hbg as <- <-.
      destruct Hok4 as [[Hge Hfresh] _].
      assert (k_fork k ≠ pid) as Hne.
      { intros Heq'. apply Hfresh; [lia|]. by rewrite Heq'. }
      split.
      + intros p options ret Hp.
        repeat (apply elem_of_cons in Hp as [Hp|Hp]; [discriminate Hp|]).
        by apply elem_of_nil in Hp.
      + intros [j Hj]%list_elem_of_lookup.
        destruct (add_bg_process_cases (k_fork k) (set_background_processes bg1 sh) j pid Hj)
          as [Hold|[Hnew _]].
        * apply Hbg1, list_elem_of_lookup. eauto.
        * congruence.
    - rewrite foreground_process_parent in Hfg by done. injection Hfg as <- <-.
      destruct Hok4 as [[Hge Hfresh] _].
      assert (k_fork k ≠ pid) as Hne.
      { intros Heq'. apply Hfresh; [lia|]. by rewrite Heq'. }
      split; [|done]. intros p options ret Hp.
      apply elem_of_cons in Hp as [Hp|Hp]; [discriminate Hp|].
      apply elem_of_cons in Hp as [Hp|Hp]; [by injection Hp as -> _ _|].
      exfalso. destruct (_ =? -1), (terminated _); simpl in Hp;
        repeat (apply elem_of_cons in Hp as [Hp|Hp]; [discriminate Hp|]);
        by apply elem_of_nil in Hp. }
  destruct Hfinal as [Hw4 Hbg']. 
  assert (Hall : ∀ p options ret,
            EvWaitpid p options ret ∈ tr1 ++ [EvStdout ": "] ++ tr4 → p ≠ pid).
  { intros p options ret [Hp|Hp]%elem_of_app; [by eapply Hw1|].
    apply elem_of_app in Hp as [Hp|Hp]; [|by eapply Hw4].
    apply elem_of_cons in Hp as [Hp|Hp]; [discriminate Hp|by apply elem_of_nil in Hp]. }
  split; [exact Hall|]. split; [exact Hbg'|].
  apply children_after_keeps; [|done|exact Hall].
  apply child_answers_ok_app. split; [done|].
  apply child_answers_ok_app. split; [done|].
  by rewrite <- children_after_app.
Qed.

(** X9: a child that the table does not hold is never waited for.  Such a
    child is a background process started while the table was full, or a
    foreground process whose wait failed.  Along every run of the shell
    from there on, no [waitpid] names it, no slot ever holds it, and it
    stays among the children that were not waited for. *)
Theorem untracked_child_is_never_reaped
    (pid : Z) (w : world) (tr : list event) (w' : world) :
  run w tr w' →
  pid ≠ 0 →
  pid ∈ w_children w →
  (pid ∉ background_processes (w_shell w)) →
  (∀ p options ret, EvWaitpid p options ret ∈ tr → p ≠ pid) ∧
  (pid ∉ background_processes (w_shell w')) ∧
  pid ∈ w_children w'.
Proof.
  intros Hrun Hpid. induction Hrun as [w|w1 tr1 w2 tr2 w3 Hrun IH Hstep]; intros Hin Hnot.
  - split; [|done]. intros p options ret Hp. by apply elem_of_nil in Hp.
  - destruct (IH Hin Hnot) as (Hw1 & Hnot2 & Hin2).
    assert (Hstep' : (∀ p options ret, EvWaitpid p options ret ∈ tr2 → p ≠ pid) ∧
                     (pid ∉ background_processes (w_shell w3)) ∧ pid ∈ w_children w3).
    { destruct Hstep as [k input w tr sh' Hbody Hok|sig w tr sh' Hsig]; simpl.
      - by eapply main_loop_body_untracked.
      - destruct (step_signal_cases _ _ _ _ Hsig) as (Hbg & _ & Hsilent).
        rewrite Hbg. split; [|done].
        intros p options ret Hp. by destruct (silent_no_wait _ _ _ _ Hsilent Hp). }
    destruct Hstep' as (Hw2 & Hnot3 & Hin3). split; [|done].
    intros p options ret [Hp|Hp]%elem_of_app; [by eapply Hw1|by eapply Hw2].
Qed.

(** The child 55 of a foreground command whose wait failed is still there
    after [sleep 5 &] has been started as process 77. *)
Lemma untracked_child_is_never_reaped_witness :
  ∃ w', run abandoned_child_world bg_started_trace w' ∧ 55 ∈ w_children w'.
Proof.
  assert (Hrun : run abandoned_child_world bg_started_trace
                   {| w_shell := bg_started_shell;
                      w_children := Kern.children_after bg_started_trace {[55]} |}).
  { apply (run_step abandoned_child_world [] abandoned_child_world bg_started_trace).
    - constructor.
    - apply (step_loop (shell_kernel 77 0 still_running) "sleep 5 &" abandoned_child_world).
      + reflexivity.
      + simpl. repeat split; try lia. intros _. set_solver. }
  eexists. split; [exact Hrun|].
  refine (proj2 (proj2 (untracked_child_is_never_reaped 55 _ _ _ Hrun _ _ _))).
  - lia.
  - unfold abandoned_child_world. cbn [w_children]. set_solver.
  - unfold abandoned_child_world, initial_shell. cbn [w_shell background_processes].
    intros Hin. apply elem_of_replicate in Hin as [? _]. lia.
Defined.

(** ** Redirection in the foreground child *)

(** X10: in a shell whose descriptors 0 and 1 are open, and for a command
    of at most [MAX_ARGS] words (so that the array [argv] ends with the
    NULL pointer that [execvp] needs): when the child of
    [foreground_process] reaches the program, a standard stream for which
    the command names a file refers to that file (read-only for the input;
    write-only, created or truncated, mode 0644 for the output), and a
    standard stream for which it names none is the one the child
    inherited: unlike a background child, it is not put on [/dev/null].
    The program receives the whole argument list.  (The descriptors
    returned by [open] are not closed; with descriptor 1 closed in the
    shell the input file would be opened as descriptor 1 and stay there.) *)
Theorem foreground_child_redirection
    (k : kernel) (cmd : command_line) (sh : shell)
    (fds : gmap Z Kern.file_description) (tr : list event) (file : string)
    (args : list string) :
  (argc cmd ≤ MAX_ARGS)%nat →
  k_fork k = 0 →
  foreground_process k cmd sh = (tr, Exec file args) →
  Kern.open_answers_ok tr fds →
  is_Some (fds !! 0) → is_Some (fds !! 1) →
  Kern.fds_after tr fds !! 0 =
    match input_file cmd with
    | Some path => Some {| Kern.fd_path := path; Kern.fd_flags := Sys.O_RDONLY;
                           Kern.fd_mode := 0 |}
    | None => fds !! 0
    end ∧
  Kern.fds_after tr fds !! 1 =
    match output_file cmd with
    | Some path => Some {| Kern.fd_path := path;
                           Kern.fd_flags := Z.lor (Z.lor Sys.O_WRONLY Sys.O_CREAT) Sys.O_TRUNC;
                           Kern.fd_mode := 420 |}
    | None => fds !! 1
    end ∧
  args = argv cmd ∧ head args = Some file.
Proof.
  intros _ H0. unfold foreground_process, fork, open, dup2, execvp. rewrite H0.
  intros Hrun Hok [d0 Hd0] [d1 Hd1]. revert Hrun Hok.
  destruct cmd as [[|arg0 rest] [inp|] [out|] bg]; branch_on_answers;
    try discriminate; intros [= <- <- <-]; unfold Kern.fds_after; simpl;
    repeat match goal with
           | H : (?x =? -1) = false |- context [?x =? -1] => rewrite H
           end.
  - (* both files *)
    intros (_ & [Hs|Hs] & _ & [Ht|Ht] & _); try absurd_answer.
    rewrite lookup_insert_eq in Ht |- *.
    assert (k_open k out output_flags ≠ 0) as Hne.
    { intros Heq. rewrite Heq in Ht. by rewrite lookup_insert_eq in Ht. }
    rewrite lookup_insert_eq. split; [|split; [|done]].
    + rewrite lookup_insert_ne by done. rewrite lookup_insert_ne by done.
      by rewrite lookup_insert_eq.
    + by rewrite lookup_insert_eq.
  - (* input only *)
    intros (_ & [Hs|Hs] & _); try absurd_answer.
    rewrite lookup_insert_eq.
    assert (k_open k inp Sys.O_RDONLY ≠ 1) as Hne by congruence.
    split; [by rewrite lookup_insert_eq|]. split; [|done].
    rewrite lookup_insert_ne by done. by rewrite lookup_insert_ne.
  - (* output only *)
    intros (_ & [Ht|Ht] & _); try absurd_answer.
    rewrite lookup_insert_eq.
    assert (k_open k out output_flags ≠ 0) as Hne by congruence.
    split; [|split; [by rewrite lookup_insert_eq|done]].
    rewrite lookup_insert_ne by done. by rewrite lookup_insert_ne.
  - (* no redirection *)
    intros _. done.
Qed.

(** [sleep 5] in a terminal keeps the terminal on both streams, where the
    background child of the same command gets [/dev/null];
    [sort < in.txt > out.txt] gets the two files. *)
Lemma foreground_child_redirection_witness :
  let run := foreground_process (child_kernel "" true) sleep_fg initial_shell in
  let sort := foreground_process (child_kernel "" true) sort_files initial_shell in
  (Kern.fds_after (trace run) terminal_fds !! 0 = Some terminal ∧
   Kern.fds_after (trace run) terminal_fds !! 1 = Some terminal) ∧
  (Kern.fds_after (trace sort) terminal_fds !! 0 =
     Some {| Kern.fd_path := "in.txt"; Kern.fd_flags := 0; Kern.fd_mode := 0 |} ∧
   Kern.fds_after (trace sort) terminal_fds !! 1 =
     Some {| Kern.fd_path := "out.txt"; Kern.fd_flags := 577; Kern.fd_mode := 420 |}).
Proof.
  intros run sort. split.
  - destruct (foreground_child_redirection (child_kernel "" true) sleep_fg initial_shell
                terminal_fds (trace run) "sleep" ["sleep"; "5"]
                ltac:(unfold argc, MAX_ARGS; simpl; lia) eq_refl eq_refl)
      as (H0 & H1 & _).
    + simpl. done.
    + by exists terminal.
    + by exists terminal.
    + split; [exact H0|exact H1].
  - destruct (foreground_child_redirection (child_kernel "" true) sort_files initial_shell
                terminal_fds (trace sort) "sort" ["sort"]
                ltac:(unfold argc, MAX_ARGS; simpl; lia) eq_refl eq_refl)
      as (H0 & H1 & _).
    + simpl. repeat split; right; reflexivity.
    + by exists terminal.
    + by exists terminal.
    + split; [exact H0|exact H1].
Defined.

(** ** The output file when the input cannot be set up *)

Lemma input_failure_fg k cmd sh :
  k_fork k = 0 →
  existsb is_failed_input_setup (trace (foreground_process k cmd sh)) = true →
  forallb (λ e, negb (is_output_open e)) (trace (foreground_process k cmd sh)) = true ∧
  (result (foreground_process k cmd sh) = Exit 1 ∨
   result (foreground_process k cmd sh) = Exit 2).
Proof.
  intros H0. unfold foreground_process, fork, open, dup2, execvp. rewrite H0.
  child_cases cmd; simpl;
    repeat match goal with
           | H : (?x =? -1) = false |- context [?x =? -1] => rewrite H
           end; simpl; try discriminate; auto.
Qed.

Lemma input_failure_bg k cmd sh :
  k_fork k = 0 →
  existsb is_failed_input_setup (trace (background_process k cmd sh)) = true →
  forallb (λ e, negb (is_output_open e)) (trace (background_process k cmd sh)) = true ∧
  (result (background_process k cmd sh) = Exit 1 ∨
   result (background_process k cmd sh) = Exit 2).
Proof.
  intros H0. unfold background_process, fork, open, dup2, execvp. rewrite H0.
  child_cases cmd; simpl;
    repeat match goal with
           | H : (?x =? -1) = false |- context [?x =? -1] => rewrite H
           end; simpl; try discriminate; auto.
Qed.

(** X11: in the child of either process function, when the input cannot be
    set up (the read-only [open] fails, or the [dup2] onto descriptor 0
    does) the child exits before any [open] for writing: the output file of
    the command is neither created nor truncated. *)
Theorem failed_input_never_touches_output
    (k : kernel) (cmd : command_line) (sh : shell) (run : proc shell) :
  run = foreground_process k cmd sh ∨ run = background_process k cmd sh →
  k_fork k = 0 →
  existsb is_failed_input_setup (trace run) = true →
  forallb (λ e, negb (is_output_open e)) (trace run) = true ∧
  (result run = Exit 1 ∨ result run = Exit 2).
Proof.
  intros [-> | ->] H0 Hfail.
  - by apply input_failure_fg.
  - by apply input_failure_bg.
Qed.

(** [sort < in.txt > out.txt] when [in.txt] cannot be opened: the child
    exits with 1 and [out.txt] is not opened. *)
Lemma failed_input_never_touches_output_witness :
  let run := foreground_process (child_kernel "in.txt" true) sort_files initial_shell in
  forallb (λ e, negb (is_output_open e)) (trace run) = true ∧
  (result run = Exit 1 ∨ result run = Exit 2).
Proof.
  intros run.
  apply (failed_input_never_touches_output (child_kernel "in.txt" true) sort_files
           initial_shell run (or_introl eq_refl) eq_refl eq_refl).
Defined.

(** ** Built-in commands *)

(** X12: a command that [main] handles itself (an empty line, a line whose
    first word begins with [#], [exit], [cd], [status]) never creates or
    awaits a process and opens no file, whatever redirections and [&] the
    line carries.  [exit] ends the shell with status 0 and does nothing
    before that, so the processes of the table are neither awaited nor
    otherwise dealt with; every other one returns to the loop with the
    state unchanged. *)
Theorem builtins_spawn_nothing (k : kernel) (cmd : command_line) (sh : shell) :
  ¬ non_builtin cmd →
  forallb (λ e, negb (is_process_event e)) (trace (dispatch k cmd sh)) = true ∧
  (if bool_decide (head (argv cmd) = Some "exit")
   then dispatch k cmd sh = ([], Exit 0)
   else result (dispatch k cmd sh) = Return sh).
Proof.
  intros Hnot. unfold dispatch.
  destruct (argv cmd) as [|arg0 rest] eqn:Hargv; [done|].
  destruct (starts_with_hash arg0) eqn:Hhash.
  { split; [done|]. case_bool_decide as Hex; [|done].
    simpl in Hex. injection Hex as ->. discriminate Hhash. }
  destruct (String.eqb arg0 "exit") eqn:Hexit.
  { apply String.eqb_eq in Hexit as ->. split; [done|]. by rewrite bool_decide_true. }
  assert (bool_decide (head (arg0 :: rest) = Some "exit") = false) as ->.
  { apply bool_decide_eq_false. simpl. intros [= ->]. discriminate Hexit. }
  destruct (String.eqb arg0 "cd") eqn:Hcd.
  { destruct (_ !! _); done. }
  destruct (String.eqb arg0 "status") eqn:Hstatus.
  { unfold status_builtin.
    destruct (exited (prev_fg_status sh)), (terminated (prev_fg_status sh)); done. }
  exfalso. apply Hnot. exists arg0, rest.
  apply String.eqb_neq in Hexit, Hcd, Hstatus. done.
Qed.

(** [cd /tmp > out.txt &] changes the directory in the shell itself. *)
Lemma builtins_spawn_nothing_witness :
  dispatch (shell_kernel 77 0 still_running)
    {| argv := ["cd"; "/tmp"]; input_file := None; output_file := Some "out.txt";
       is_bg := true |} initial_shell =
  ([EvChdir (Some "/tmp")], Return initial_shell).
Proof.
  destruct (builtins_spawn_nothing (shell_kernel 77 0 still_running)
              {| argv := ["cd"; "/tmp"]; input_file := None; output_file := Some "out.txt";
                 is_bg := true |} initial_shell) as [_ Hres].
  - intros (arg0 & rest & [= <- <-] & _ & _ & Hcd & _). by apply Hcd.
  - rewrite bool_decide_false in Hres by discriminate.
    destruct (dispatch _ _ _) as [tr o] eqn:Hd. simpl in Hres. subst o.
    injection Hd as <-. reflexivity.
Defined.

(** ** What [status] reports *)

(** X13: [status] reports the last foreground termination until the next
    one.  After a foreground command whose wait reported the termination
    [r], and after any further turns of the loop and signals in which no
    foreground wait happens (background commands, sweeps of the reaper,
    built-ins, SIGTSTP), [status] prints "exit value C" when [r] is an exit
    with code C and "terminated by signal N" when it is a death by signal
    N. *)
Theorem status_reports_last_foreground
    (k : kernel) (cmd : command_line) (sh : shell) (r : TerminationRecord) (core : bool)
    (children : gset Z) (tr : list event) (w : world) :
  0 < k_fork k →
  valid_termination r →
  k_wait k (k_fork k) = (k_fork k, status_word r core) →
  run {| w_shell := set_prev_fg_status (record_of r) sh; w_children := children |} tr w →
  forallb (λ e, negb (is_blocking_wait e)) tr = true →
  result (foreground_process k cmd sh) = Return (set_prev_fg_status (record_of r) sh) ∧
  status_builtin (w_shell w) =
    ([EvStdout match r with
               | ExitedWithCode c => "exit value " +:+ pretty c +:+ nl
               | KilledBySignal sig => "terminated by signal " +:+ pretty sig +:+ nl
               end], Return tt).
Proof.
  intros Hpos Hvalid Hwait Hrun Hquiet. split.
  - by rewrite (foreground_process_wait_reports k cmd sh r core Hpos Hvalid Hwait).
  - pose proof (run_status_frame _ _ _ Hrun Hquiet) as Hst. simpl in Hst.
    unfold status_builtin. rewrite Hst. by destruct r.
Qed.

(** [sleep 5] exits with code 3; then [sleep 5 &] is started as process 78
    and SIGTSTP is delivered; [status] then still prints "exit value 3". *)
Lemma status_reports_last_foreground_witness :
  result (foreground_process (shell_kernel 77 (Sys.W_EXITCODE 3 0) still_running)
            sleep_fg initial_shell) = Return (w_shell exited3_world) ∧
  run exited3_world (quiet_turn_trace ++ [EvStdout msg_enter]) quiet_world ∧
  EvFork 78 ∈ quiet_turn_trace ++ [EvStdout msg_enter] ∧
  fg_only (w_shell quiet_world) = true ∧
  background_processes (w_shell quiet_world) !! 0%nat = Some 78 ∧
  status_builtin (w_shell quiet_world) = ([EvStdout ("exit value 3" +:+ nl)], Return tt).
Proof.
  assert (Hrun : run exited3_world (quiet_turn_trace ++ [EvStdout msg_enter]) quiet_world).
  { apply (run_step exited3_world quiet_turn_trace
             {| w_shell := add_bg_process 78 (w_shell exited3_world);
                w_children := Kern.children_after quiet_turn_trace ∅ |}
             [EvStdout msg_enter] quiet_world).
    - apply (run_step exited3_world [] exited3_world quiet_turn_trace).
      + constructor.
      + apply (step_loop (shell_kernel 78 0 still_running) "sleep 5 &" exited3_world).
        * reflexivity.
        * simpl. repeat split; try lia. intros _. set_solver.
    - apply (step_signal Sys.SIGTSTP
               {| w_shell := add_bg_process 78 (w_shell exited3_world);
                  w_children := Kern.children_after quiet_turn_trace ∅ |}).
      reflexivity. }
  destruct (status_reports_last_foreground
              (shell_kernel 77 (Sys.W_EXITCODE 3 0) still_running) sleep_fg initial_shell
              (ExitedWithCode 3) false ∅ (quiet_turn_trace ++ [EvStdout msg_enter])
              quiet_world) as [Hfg Hstatus].
  - simpl. lia.
  - simpl. lia.
  - reflexivity.
  - exact Hrun.
  - reflexivity.
  - split; [exact Hfg|]. split; [exact Hrun|].
    split; [|split; [reflexivity|split; [reflexivity|exact Hstatus]]].
    apply elem_of_cons. right. apply elem_of_cons. by left.
Defined.

(** ** The record of the last foreground status, whatever the wait stored *)

Lemma wexitstatus_range status : 0 ≤ Sys.WEXITSTATUS status ≤ 255.
Proof.
  unfold Sys.WEXITSTATUS. rewrite Z.shiftr_land.
  change (Z.shiftr 65280 8) with (Z.ones 8).
  rewrite Z.land_ones by lia.
  pose proof (Z.mod_pos_bound (Z.shiftr status 8) (2 ^ 8) ltac:(lia)). lia.
Qed.

Lemma wifsignaled_range status :
  Sys.WIFSIGNALED status = true → 1 ≤ Sys.WTERMSIG status ≤ 126.
Proof.
  unfold Sys.WIFSIGNALED, Sys.WTERMSIG.
  change 127 with (Z.ones 7). rewrite Z.land_ones by lia.
  pose proof (Z.mod_pos_bound status (2 ^ 7) ltac:(lia)) as Hrange.
  set (x := status `mod` 2 ^ 7) in *.
  assert (Hall : forallb (λ x, implb (0 <? Z.shiftr (Sys.signed_char (x + 1)) 1)
                                    ((1 <=? x) && (x <=? 126)))
                         (seqZ 0 128) = true) by (vm_compute; reflexivity).
  rewrite forallb_forall in Hall. specialize (Hall x).
  rewrite <- list_elem_of_In, elem_of_seqZ in Hall.
  specialize (Hall ltac:(lia)). intros Hsig. rewrite Hsig in Hall. simpl in Hall.
  apply andb_prop in Hall as [?%Z.leb_le ?%Z.leb_le]. lia.
Qed.

Lemma classify_record_ok status prev :
  record_ok prev → record_ok (classify status prev).
Proof.
  intros Hprev. unfold classify.
  destruct (Sys.WIFSIGNALED status) eqn:Hsig.
  - unfold record_ok. simpl. by apply wifsignaled_range.
  - destruct (Sys.WIFEXITED status); [|done].
    unfold record_ok. simpl. apply wexitstatus_range.
Qed.

Lemma main_loop_body_status_cases k input sh tr sh' :
  main_loop_body k input sh = (tr, Return sh') →
  fg_only sh' = fg_only sh ∧
  (prev_fg_status sh' = prev_fg_status sh ∨
   ∃ status, prev_fg_status sh' = classify status (prev_fg_status sh)).
Proof.
  unfold main_loop_body.
  intros (tr1 & sh1 & tr2 & Hreap & Hrest & ->)%bind_return_inv.
  apply bind_return_inv in Hrest as (tr3 & cmd & tr4 & Hparse & Hdisp & ->).
  destruct (check_background_processes_returns k sh) as (tr1' & bg1 & Heq & _).
  rewrite Heq in Hreap. injection Hreap as <- <-.
  destruct (dispatch_return_cases _ _ _ _ _ Hdisp)
    as [[-> _]|(H1 & H0 & [(_ & _ & Hbg)|Hfg])].
  - split; [done|by left].
  - rewrite background_process_parent in Hbg by done. injection Hbg as <- <-.
    split; [done|by left].
  - rewrite foreground_process_parent in Hfg by done. injection Hfg as <- <-.
    split; [done|]. right. eexists. reflexivity.
Qed.

Lemma run_record_ok w0 tr w :
  run w0 tr w →
  record_ok (prev_fg_status (w_shell w0)) → record_ok (prev_fg_status (w_shell w)).
Proof.
  induction 1 as [w1|w1 tr1 w2 tr2 w3 Hrun IH Hstep]; [done|].
  intros Hw1. specialize (IH Hw1).
  destruct Hstep as [k input wa tra sh' Hbody _|sig wa tra sh' Hsig]; simpl.
  - destruct (main_loop_body_status_cases _ _ _ _ _ Hbody) as [_ [-> |[st ->]]];
      [done|by apply classify_record_ok].
  - destruct (step_signal_cases _ _ _ _ Hsig) as (_ & -> & _). done.
Qed.

(** X14: in every state the shell reaches, the record of the last
    foreground status carries at most one tag, and its code fits the tag:
    0 to 255 for an exit, 1 to 126 for a signal, 0 when the record is still
    untagged.  This holds whatever status word the wait left, that of a
    failed wait included, so [status] never prints a number outside these
    ranges. *)
Theorem status_record_stays_well_formed (tr : list event) (w : world) :
  run initial_world tr w →
  record_ok (prev_fg_status (w_shell w)) ∧
  ∃ text, status_builtin (w_shell w) = ([EvStdout text], Return tt) ∧
    (text = "exit status 0" +:+ nl ∨
     (∃ c, 0 ≤ c ≤ 255 ∧ text = "exit value " +:+ pretty c +:+ nl) ∨
     (∃ sig, 1 ≤ sig ≤ 126 ∧ text = "terminated by signal " +:+ pretty sig +:+ nl)).
Proof.
  intros Hrun.
  pose proof (run_record_ok initial_world tr w Hrun eq_refl) as Hok.
  split; [exact Hok|]. unfold status_builtin. unfold record_ok in Hok.
  destruct (exited (prev_fg_status (w_shell w))), (terminated (prev_fg_status (w_shell w)));
    try done; eexists; (split; [reflexivity|]).
  - right. left. eexists. split; [exact Hok|reflexivity].
  - right. right. eexists. split; [exact Hok|reflexivity].
  - by left.
Qed.

(** The state after [sleep 5] was run in the foreground and killed by
    SIGINT: the record is tagged terminated with code 2, and [status] prints
    one of the three lines.  The state after the same command when the wait
    failed with 5 in the status variable: the record is well formed too. *)
Lemma status_record_stays_well_formed_witness :
  (run initial_world fg_killed_trace fg_killed_world ∧
   EvWaitpid 77 0 77 ∈ fg_killed_trace ∧
   prev_fg_status (w_shell fg_killed_world) =
     {| exited := false; terminated := true; code := 2 |} ∧
   record_ok (prev_fg_status (w_shell fg_killed_world)) ∧
   ∃ text, status_builtin (w_shell fg_killed_world) = ([EvStdout text], Return tt) ∧
     (text = "exit status 0" +:+ nl ∨
      (∃ c, 0 ≤ c ≤ 255 ∧ text = "exit value " +:+ pretty c +:+ nl) ∨
      (∃ sig, 1 ≤ sig ≤ 126 ∧ text = "terminated by signal " +:+ pretty sig +:+ nl))) ∧
  (run initial_world fg_wait_failed_trace fg_wait_failed_world ∧
   EvWaitpid 77 0 (-1) ∈ fg_wait_failed_trace ∧
   record_ok (prev_fg_status (w_shell fg_wait_failed_world))).
Proof.
  split.
  2:{ assert (Hrun : run initial_world fg_wait_failed_trace fg_wait_failed_world).
      { apply (run_step initial_world [] initial_world fg_wait_failed_trace).
        - constructor.
        - apply (step_loop (interrupted_kernel 77 5) "sleep 5" initial_world).
          + reflexivity.
          + simpl. repeat split; try lia. intros _. set_solver. }
      split; [exact Hrun|]. split.
      { apply elem_of_cons. right. apply elem_of_cons. right. apply elem_of_cons. by left. }
      exact (proj1 (status_record_stays_well_formed fg_wait_failed_trace
                      fg_wait_failed_world Hrun)). }
  assert (Hrun : run initial_world fg_killed_trace fg_killed_world).
  { apply (run_step initial_world [] initial_world fg_killed_trace).
    - constructor.
    - apply (step_loop (shell_kernel 77 2 still_running) "sleep 5" initial_world).
      + reflexivity.
      + simpl. repeat split; try lia. intros _. set_solver. }
  split; [exact Hrun|]. split.
  { apply elem_of_cons. right. apply elem_of_cons. right. apply elem_of_cons. by left. }
  split; [reflexivity|].
  exact (status_record_stays_well_formed fg_killed_trace fg_killed_world Hrun).
Defined.

(** ** The mode and the banners *)

Lemma slot_events_no_banner k i pid :
  forallb (λ e, negb (is_banner e)) (slot_events k i pid) = true.
Proof.
  unfold slot_events. destruct (pid =? 0); [done|].
  destruct (0 <? _); [|done].
  destruct (Sys.WIFEXITED _); [done|]. by destruct (Sys.WIFSIGNALED _).
Qed.

Lemma dispatch_no_banner k cmd sh :
  forallb (λ e, negb (is_banner e)) (trace (dispatch k cmd sh)) = true.
Proof.
  assert (Hfg : forallb (λ e, negb (is_banner e)) (trace (foreground_process k cmd sh)) = true).
  { destruct (decide (k_fork k = -1)) as [H1|H1].
    { by rewrite foreground_process_fork_failed. }
    destruct (decide (k_fork k = 0)) as [H0|H0].
    { unfold foreground_process, fork, open, dup2, execvp. rewrite H0.
      child_cases cmd; reflexivity. }
    rewrite foreground_process_parent by done. unfold trace. cbn [fst].
    rewrite !forallb_app. destruct (_ =? -1), (terminated _); reflexivity. }
  assert (Hbg : forallb (λ e, negb (is_banner e)) (trace (background_process k cmd sh)) = true).
  { destruct (decide (k_fork k = -1)) as [H1|H1].
    { by rewrite background_process_fork_failed. }
    destruct (decide (k_fork k = 0)) as [H0|H0].
    { unfold background_process, fork, open, dup2, execvp. rewrite H0.
      child_cases cmd; reflexivity. }
    by rewrite background_process_parent by done. }
  unfold dispatch. destruct (argv cmd) as [|arg0 rest]; [done|].
  destruct (starts_with_hash arg0); [done|].
  destruct (String.eqb arg0 "exit"); [done|].
  destruct (String.eqb arg0 "cd"). { by destruct (_ !! _). }
  destruct (String.eqb arg0 "status").
  { unfold status_builtin.
    destruct (exited (prev_fg_status sh)), (terminated (prev_fg_status sh)); done. }
  by destruct (is_bg cmd && _).
Qed.

Lemma main_loop_body_no_banner k input sh tr sh' :
  main_loop_body k input sh = (tr, Return sh') →
  List.filter is_banner tr = [].
Proof.
  unfold main_loop_body.
  intros (tr1 & sh1 & tr2 & Hreap & Hrest & ->)%bind_return_inv.
  apply bind_return_inv in Hrest as (tr3 & cmd & tr4 & Hparse & Hdisp & ->).
  apply parse_input_trace in Hparse as ->.
  destruct (check_background_processes_returns k sh) as (tr1' & bg1 & Heq & Hslots).
  rewrite Heq in Hreap. injection Hreap as <- <-.
  destruct (check_slots_spec k MAX_BG_PC 0 (background_processes sh))
    as (tr1'' & bg1' & Heq' & _ & _ & Hev).
  rewrite Hslots in Heq'. injection Heq' as <- <-.
  pose proof (dispatch_no_banner k cmd (set_background_processes bg1 sh)) as Hd.
  rewrite Hdisp in Hd. unfold trace in Hd. cbn [fst] in Hd.
  assert (Hnone : ∀ l, forallb (λ e, negb (is_banner e)) l = true →
                       List.filter is_banner l = []).
  { induction l as [|e l IH]; [done|]. simpl. intros [He Hl]%andb_prop.
    apply negb_true_iff in He. rewrite He. by apply IH. }
  rewrite !List.filter_app, (Hnone tr4 Hd). simpl. rewrite app_nil_r.
  apply Hnone. apply forallb_forall. intros e He%list_elem_of_In.
  apply Hev in He as (j & p & _ & _ & He).
  pose proof (slot_events_no_banner k j p) as Hs. rewrite forallb_forall in Hs.
  apply Hs. by apply list_elem_of_In.
Qed.

(** X15: the mode can be read off the output.  Along every run of the
    shell, [fg_only] changes exactly when an odd number of the banners of
    [handle_SIGTSTP] is written: nothing but the handler writes a banner,
    and nothing but the handler changes [fg_only].  From the initial state,
    [fg_only] is therefore true exactly when an odd number of banners has
    been written so far. *)
Theorem fg_only_is_parity_of_banners (w0 : world) (tr : list event) (w : world) :
  run w0 tr w →
  fg_only (w_shell w) =
    xorb (fg_only (w_shell w0)) (Nat.odd (length (List.filter is_banner tr))).
Proof.
  induction 1 as [w1|w1 tr1 w2 tr2 w3 Hrun IH Hstep].
  - simpl. by rewrite xorb_false_r.
  - rewrite List.filter_app, length_app.
    destruct Hstep as [k input wa tra sh' Hbody _|sig wa tra sh' Hsig]; simpl.
    + rewrite (main_loop_body_no_banner _ _ _ _ _ Hbody). simpl. rewrite Nat.add_0_r.
      by destruct (main_loop_body_status_cases _ _ _ _ _ Hbody) as [-> _].
    + rewrite deliver_shell_signals in Hsig. repeat case_decide; [| |discriminate].
      * unfold handle_SIGTSTP in Hsig.
        destruct (fg_only (w_shell wa)) eqn:Hfg; injection Hsig as <- <-; simpl;
          rewrite Nat.add_1_r, Nat.odd_succ, <- Nat.negb_odd;
          destruct (fg_only (w_shell w1)), (Nat.odd _); simpl in *; congruence.
      * injection Hsig as <- <-. simpl. by rewrite Nat.add_0_r.
Qed.

(** After [sleep 5 &] and three deliveries of SIGTSTP, three banners were
    written (entering, exiting, entering) and the mode is on. *)
Lemma fg_only_is_parity_of_banners_witness :
  let tr := ((bg_started_trace ++ [EvStdout msg_enter]) ++ [EvStdout msg_exit]) ++
            [EvStdout msg_enter] in
  run initial_world tr three_banners_world ∧
  length (List.filter is_banner tr) = 3%nat ∧
  fg_only (w_shell three_banners_world) = true ∧
  fg_only (w_shell three_banners_world) =
    xorb (fg_only (w_shell initial_world)) (Nat.odd (length (List.filter is_banner tr))).
Proof.
  intros tr.
  assert (Hrun0 : run initial_world bg_started_trace bg_started_world).
  { apply (run_step initial_world [] initial_world bg_started_trace).
    - constructor.
    - apply (step_loop (shell_kernel 77 0 still_running) "sleep 5 &" initial_world).
      + reflexivity.
      + simpl. repeat split; try lia. intros _. set_solver. }
  assert (Hrun : run initial_world tr three_banners_world).
  { apply (run_step initial_world _
             {| w_shell := set_fg_only false bg_started_shell;
                w_children := w_children bg_started_world |}
             [EvStdout msg_enter] three_banners_world).
    - apply (run_step initial_world _
               {| w_shell := set_fg_only true bg_started_shell;
                  w_children := w_children bg_started_world |}
               [EvStdout msg_exit]).
      + apply (run_step initial_world _ bg_started_world [EvStdout msg_enter]
                 {| w_shell := set_fg_only true bg_started_shell;
                    w_children := w_children bg_started_world |}); [exact Hrun0|].
        apply (step_signal Sys.SIGTSTP bg_started_world). reflexivity.
      + apply (step_signal Sys.SIGTSTP
                 {| w_shell := set_fg_only true bg_started_shell;
                    w_children := w_children bg_started_world |}).
        reflexivity.
    - apply (step_signal Sys.SIGTSTP
               {| w_shell := set_fg_only false bg_started_shell;
                  w_children := w_children bg_started_world |}).
      reflexivity. }
  split; [exact Hrun|]. split; [reflexivity|]. split; [reflexivity|].
  exact (fg_only_is_parity_of_banners initial_world tr three_banners_world Hrun).
Defined.

(** ** Lines that run nothing *)

(** X16: a turn of the loop on a line that parses (its redirection
    operators all have a file name, and it has at most [MAX_ARGS + 1]
    words) and that has no word (a blank line, or a line made of
    redirections and [&] only), or whose first word begins with [#],
    consists of the sweep of the reaper and the prompt: no process is
    created, no file of the line is opened, and the state is the one the
    sweep left.  The line is parsed before [main] looks at its first word,
    so a line that ends with a redirection operator without a file name is
    undefined even when it is a comment. *)
Theorem blank_and_comment_lines_run_nothing
    (k : kernel) (input : string) (sh : shell) (items : list item) :
  Forall well_formed_item items →
  (strtok_all input = line_tokens items →
   (count_args items ≤ MAX_ARGS + 1)%nat →
   match head (words_of items) with
   | Some word => starts_with_hash word = true
   | None => True
   end →
   main_loop_body k input sh =
     (sh1 ← check_background_processes k sh; printf ": ";; mret sh1)) ∧
  (∀ op, is_redirect op →
     strtok_all input = line_tokens items ++ [op] →
     main_loop_body k input sh =
       (sh1 ← check_background_processes k sh; printf ": ";; undefined)).
Proof.
  intros Hwf. split.
  - intros Htok Hle Hfirst.
    destruct (foldl_apply_item_fields items empty_command) as (Hargv & _).
    simpl in Hargv.
    assert (Hparse : parse_input input =
              ([EvStdout ": "], Return (foldl apply_item empty_command items))).
    { unfold parse_input. rewrite Htok, <- (app_nil_r (line_tokens items)).
      by rewrite parse_tokens_items
        by (done || (unfold argc; cbn [argv empty_command length]; lia)). }
    unfold main_loop_body. rewrite Hparse.
    destruct (check_background_processes_returns k sh) as (tr1 & bg1 & -> & _).
    simpl. unfold dispatch. rewrite Hargv.
    destruct (words_of items) as [|word rest]; simpl in *.
    + reflexivity.
    + rewrite Hfirst. reflexivity.
  - intros op Hop Htok.
    assert (Hparse : parse_input input = ([EvStdout ": "], Undefined)).
    { unfold parse_input. rewrite Htok.
      destruct (decide (count_args items ≤ MAX_ARGS + 1)%nat) as [Hle|Hgt].
      - rewrite parse_tokens_items
          by (done || (unfold argc; cbn [argv empty_command length]; lia)).
        by rewrite parse_tokens_dangling.
      - by rewrite parse_tokens_items_overflow
          by (done || (unfold argc; cbn [argv empty_command length]; lia)). }
    unfold main_loop_body. rewrite Hparse.
    by destruct (check_background_processes_returns k sh) as (tr1 & bg1 & -> & _).
Qed.

(** The line [# sleep 5 > out.txt &] runs nothing in the initial state; the
    comment [# note <] is undefined. *)
Lemma blank_and_comment_lines_run_nothing_witness :
  main_loop_body (shell_kernel 77 0 still_running) "# sleep 5 > out.txt &" initial_shell =
    ([EvStdout ": "], Return initial_shell) ∧
  main_loop_body (shell_kernel 77 0 still_running) "# note <" initial_shell =
    ([EvStdout ": "], Undefined).
Proof.
  split.
  - rewrite (proj1 (blank_and_comment_lines_run_nothing (shell_kernel 77 0 still_running)
               "# sleep 5 > out.txt &" initial_shell
               [IArg "#"; IArg "sleep"; IArg "5"; IRedirOut "out.txt"; IBackground]
               ltac:(repeat constructor; discriminate))).
    + reflexivity.
    + reflexivity.
    + cbn [count_args]. unfold MAX_ARGS. lia.
    + reflexivity.
  - rewrite (proj2 (blank_and_comment_lines_run_nothing (shell_kernel 77 0 still_running)
               "# note <" initial_shell [IArg "#"; IArg "note"]
               ltac:(repeat constructor; discriminate)) "<").
    + reflexivity.
    + by left.
    + reflexivity.
Defined.

(** ** What the reaper prints *)

(** X17: the reaper reports nothing it did not reap.  Every line a sweep
    prints is a completion line for a slot that was occupied before the
    sweep, whose poll returned a positive process id, and that holds 0
    after the sweep; for a process that is still running, or whose poll
    failed, nothing is printed. *)
Theorem reaper_prints_only_for_cleared_slots
    (k : kernel) (sh : shell) (tr : list event) (sh' : shell) (text : string) :
  length (background_processes sh) = MAX_BG_PC →
  check_background_processes k sh = (tr, Return sh') →
  EvStdout text ∈ tr →
  ∃ (i : nat) pid,
    background_processes sh !! i = Some pid ∧ pid ≠ 0 ∧
    0 < (k_poll k i pid).1 ∧
    background_processes sh' !! i = Some 0 ∧
    (text = msg_bg_exit (k_poll k i pid).1 (Sys.WEXITSTATUS (k_poll k i pid).2) ∨
     text = msg_bg_signal (k_poll k i pid).1 (Sys.WTERMSIG (k_poll k i pid).2)).
Proof.
  intros Hlen Hrun Hin.
  destruct (check_background_processes_returns k sh) as (tr1 & bg1 & Heq & Hslots).
  rewrite Heq in Hrun. injection Hrun as <- <-.
  destruct (check_slots_spec k MAX_BG_PC 0 (background_processes sh))
    as (tr1' & bg1' & Heq' & _ & Hlook & Hev).
  rewrite Hslots in Heq'. injection Heq' as <- <-.
  apply Hev in Hin as (i & pid & Hrange & Hi & Hin).
  exists i, pid. unfold slot_events in Hin.
  destruct (pid =? 0) eqn:Hp; [by apply elem_of_nil in Hin|]. apply Z.eqb_neq in Hp.
  apply elem_of_cons in Hin as [Hin|Hin]; [discriminate Hin|].
  destruct (0 <? (k_poll k i pid).1) eqn:Hret; [|by apply elem_of_nil in Hin].
  split; [done|]. split; [done|]. split; [by apply Z.ltb_lt|]. split.
  - cbn [background_processes set_background_processes].
    rewrite (Hlook i pid Hi), decide_True by done.
    unfold slot_after. by rewrite (proj2 (Z.eqb_neq _ _) Hp), Hret.
  - destruct (Sys.WIFEXITED _).
    + apply elem_of_cons in Hin as [[= ->]|Hin]; [by left|by apply elem_of_nil in Hin].
    + destruct (Sys.WIFSIGNALED _); [|by apply elem_of_nil in Hin].
      apply elem_of_cons in Hin as [[= ->]|Hin]; [by right|by apply elem_of_nil in Hin].
Qed.

(** After [sleep 5 &], the sweep that finds the child exited prints the
    line for process 77 and clears slot 0. *)
Lemma reaper_prints_only_for_cleared_slots_witness :
  ∃ (i : nat) pid,
    background_processes bg_started_shell !! i = Some pid ∧ pid ≠ 0 ∧
    0 < ((all_exited 0) i pid).1.
Proof.
  destruct (reaper_prints_only_for_cleared_slots (shell_kernel 78 0 (all_exited 0))
              bg_started_shell
              [EvWaitpid 77 Sys.WNOHANG 77; EvStdout (msg_bg_exit 77 0)]
              initial_shell (msg_bg_exit 77 0) eq_refl eq_refl)
    as (i & pid & Hi & Hp & Hret & _).
  - apply elem_of_cons. right. apply elem_of_cons. by left.
  - exists i, pid. done.
Defined.
